(** * add-metadata.py: tagging audio files through ffmpeg

    A shallow embedding of [scripts/add-metadata.py] and the properties of
    its command synthesis, file discovery, output-name derivation and
    cleanup.

    Modelling choices.
    - Python [str] values are [string]s.  Every character the script looks
      at (['/'], ['*'], [' '], ['''], ['=']) is ASCII, and an ASCII
      character never occurs inside a multi-byte UTF-8 sequence, so the
      operations below agree with their code-point versions on UTF-8 text.
    - [pathlib.Path] is modelled on POSIX as the pair (root, tail) that
      pathlib keeps after parsing; [str(p)] and [p.as_posix()] are the
      formatted text of the path.  The script also reads the private slot
      [p._str], which pathlib fills only when the text of that very
      object is first asked for: a path object is the path together with
      the state of its slot, and reading an empty slot raises
      [AttributeError].
    - Exceptions are an [outcome]; the effects (glob, [input] and
      [subprocess.run]) act on a [world] that holds the directory oracle,
      the programs that can be started, the pending lines of standard
      input and the log of what was done.  Text written by [print] is
      not modelled. *)

From Stdlib Require Import List String Ascii Bool Arith Lia.
Import ListNotations.
Local Open Scope string_scope.
Local Open Scope list_scope.

(** ** Python string operations used by the script *)

Module PyStr.

(** [bool(s)] for a string: true unless empty. *)
Definition truthy (s : string) : bool :=
  match s with
  | EmptyString => false
  | String _ _ => true
  end.

(** [c in s] for a one-character [c]. *)
Fixpoint contains (c : ascii) (s : string) : bool :=
  match s with
  | EmptyString => false
  | String a s' => Ascii.eqb a c || contains c s'
  end.

(** [s.replace(old, new)] for a one-character [old]. *)
Fixpoint replace (old : ascii) (new : string) (s : string) : string :=
  match s with
  | EmptyString => EmptyString
  | String a s' =>
      if Ascii.eqb a old then new ++ replace old new s'
      else String a (replace old new s')
  end.

(** [s.rindex(c)]: the highest index of [c]; [None] stands for the
    [ValueError] of a missing character. *)
Fixpoint rindex (c : ascii) (s : string) : option nat :=
  match s with
  | EmptyString => None
  | String a s' =>
      match rindex c s' with
      | Some i => Some (S i)
      | None => if Ascii.eqb a c then Some 0 else None
      end
  end.

(** [s[:i]] for [0 <= i]. *)
Definition slice_to (i : nat) (s : string) : string := substring 0 i s.

(** [s.split(c)]. *)
Fixpoint split (c : ascii) (s : string) : list string :=
  match s with
  | EmptyString => [EmptyString]
  | String a s' =>
      if Ascii.eqb a c then EmptyString :: split c s'
      else match split c s' with
           | [] => [String a EmptyString]
           | h :: t => String a h :: t
           end
  end.

(** [s[1:]]. *)
Definition drop1 (s : string) : string :=
  match s with
  | EmptyString => EmptyString
  | String _ s' => s'
  end.

(** [s[:1] == c]. *)
Definition starts_with (c : ascii) (s : string) : bool :=
  match s with
  | EmptyString => false
  | String a _ => Ascii.eqb a c
  end.

End PyStr.

(** ** pathlib on POSIX *)

Module Pathlib.

Definition sep : ascii := "/"%char.

Record Path := mkPath { root : string; tail : list string }.

(** [posixpath.splitroot]: one leading slash or three and more give the
    root ["/"], exactly two give ["//"]. *)
Definition splitroot (p : string) : string * string :=
  if negb (PyStr.starts_with sep p) then ("", p)
  else if negb (PyStr.starts_with sep (PyStr.drop1 p))
          || PyStr.starts_with sep (PyStr.drop1 (PyStr.drop1 p))
       then ("/", PyStr.drop1 p)
       else ("//", PyStr.drop1 (PyStr.drop1 p)).

(** A component survives parsing when it is neither empty nor ["."]. *)
Definition keep (x : string) : bool :=
  PyStr.truthy x && negb (x =? ".").

(** [Path(s)]. *)
Definition parse (s : string) : Path :=
  let '(r, rel) := splitroot s in
  mkPath r (filter keep (PyStr.split sep rel)).

(** [p / s]: an absolute right operand replaces the left one, a relative
    one appends its components. *)
Definition joinpath (p : Path) (s : string) : Path :=
  let q := parse s in
  if PyStr.truthy (root q) then q
  else mkPath (root p) (tail p ++ tail q).

(** [str(p)]. *)
Definition str (p : Path) : string :=
  match root p, tail p with
  | EmptyString, [] => "."
  | r, t => r ++ String.concat "/" t
  end.

(** [p.as_posix()]. *)
Definition as_posix (p : Path) : string := str p.

(** [p.name]: the last component, or the empty string. *)
Definition name (p : Path) : string := last (tail p) "".

End Pathlib.

Import Pathlib.

(** ** Exceptions, effects and the world they act on *)

Inductive exn : Type :=
  | AssertionError
  | IndexError
  | ValueError
  | EOFError
  | PatternError
  | AttributeError
  | FileNotFoundError.

Inductive outcome (A : Type) : Type :=
  | Ok (a : A)
  | Raise (e : exn).
Arguments Ok {A} a.
Arguments Raise {A} e.

(** The binding of a pure step that may raise. *)
Definition and_then {A B} (o : outcome A) (k : A -> outcome B) : outcome B :=
  match o with
  | Ok a => k a
  | Raise e => Raise e
  end.

(** A path object: the path and whether its [_str] slot is filled. *)
Record PathObj := mkObj { value : Path; cached : bool }.

(** [Path(s)] and [p / s] make a new object, its slot empty. *)
Definition fresh (p : Path) : PathObj := mkObj p false.

(** The object once [str(o)] or [o.as_posix()] has run on it. *)
Definition fill (o : PathObj) : PathObj := mkObj (value o) true.

(** [o._str]: the text kept in the slot, [AttributeError] when the slot
    was never filled. *)
Definition _str (o : PathObj) : outcome string :=
  if cached o then Ok (str (value o)) else Raise AttributeError.

Inductive event : Type :=
  | Globbed (dir : Path) (pattern : string)
  | Prompted (prompt : string)
  | Ran (command : list string).

(** [fs] answers a glob; [glob_slot dir pattern p] tells whether the
    object that this glob hands out for [p] comes with its [_str] slot
    filled, which varies with the interpreter and the pattern (CPython
    3.11 leaves it empty for a match of a wildcard component, and fills
    it for a literal last component, where it asks whether the path
    exists); [installed] tells whether a program can be started. *)
Record world := mkWorld {
  fs : Path -> string -> option (list Path);
  glob_slot : Path -> string -> Path -> bool;
  installed : string -> bool;
  stdin : list string;
  log : list event
}.

Definition record (e : event) (w : world) : world :=
  mkWorld (fs w) (glob_slot w) (installed w) (stdin w) (log w ++ [e]).

Definition M (A : Type) : Type := world -> outcome A * world.

Definition ret {A} (a : A) : M A := fun w => (Ok a, w).

Definition raise {A} (e : exn) : M A := fun w => (Raise e, w).

Definition bind {A B} (m : M A) (k : A -> M B) : M B :=
  fun w =>
    match m w with
    | (Ok a, w') => k a w'
    | (Raise e, w') => (Raise e, w')
    end.

Notation "x <- m ;; k" := (bind m (fun x => k))
  (at level 61, m at next level, right associativity).
Notation "m ;;; k" := (bind m (fun _ => k))
  (at level 61, right associativity).

Definition lift {A} (o : outcome A) : M A := fun w => (o, w).

(** [assert b]. *)
Definition assert (b : bool) : M unit :=
  if b then ret tt else raise AssertionError.

(** [list(path.glob(pattern))]: the answer of the directory oracle, where
    [None] is a pattern that pathlib rejects. *)
Definition glob (path : Path) (pattern : string) : M (list Path) :=
  fun w =>
    (match fs w path pattern with
     | Some l => Ok l
     | None => Raise PatternError
     end,
     record (Globbed path pattern) w).

(** [input(prompt)]: the next line of standard input, [EOFError] at its
    end. *)
Definition input (prompt : string) : M string :=
  fun w =>
    match stdin w with
    | [] => (Raise EOFError, record (Prompted prompt) w)
    | line :: rest =>
        (Ok line,
         mkWorld (fs w) (glob_slot w) (installed w) rest
           (log w ++ [Prompted prompt]))
    end.

(** [subprocess.run(command)]: a program that cannot be started raises
    [FileNotFoundError]; the exit status of one that ran is never
    inspected. *)
Definition subprocess_run (command : list string) : M unit :=
  fun w =>
    match command with
    | [] => (Raise IndexError, w)
    | program :: _ =>
        if installed w program then (Ok tt, record (Ran command) w)
        else (Raise FileNotFoundError, w)
    end.

(** ** The script *)

Module MediaConfig.
Record t := mk {
  dir : string;
  img : string;
  artist : string;
  genre : string;
  track : string;
  album : string;
  title : string;
  filename : string;
  askTitle : bool;
  replaceWhitespace : bool;
  cleanupFiles : bool
}.
End MediaConfig.

(** [l[0]]. *)
Definition item0 {A} (l : list A) : M A :=
  match l with
  | [] => raise IndexError
  | x :: _ => ret x
  end.

Definition getFilePaths (dir filename img : string)
  : M (list Path * option Path) :=
  let path := parse dir in
  files <- (if PyStr.contains "*" filename
            then glob path filename
            else ret [joinpath path filename]) ;;
  assert (match files with [] => false | _ => true end
          || (0 <? List.length files)%nat) ;;;
  imageFile <- (if PyStr.truthy img
                then l <- glob path img ;; x <- item0 l ;; ret (Some x)
                else ret None) ;;
  ret (files, imageFile).

Definition getRmCommand (file : PathObj) : outcome (list string) :=
  and_then (_str file) (fun text =>
  let command := ["rm"; text] in
  Ok command).

Definition getMvCommand (originalFilename newFilename : string)
  : list string :=
  ["mv"; originalFilename; newFilename].

(** One turn of the loop over [metadataMap.items()]. *)
Definition extendTag (command : list string) (kv : string * string)
  : list string :=
  let '(key, value) := kv in
  if PyStr.truthy value
  then command ++ ["-metadata"; (key ++ "=" ++ value)%string]
  else command.

Definition getFfmpegCommand (file : PathObj) (config : MediaConfig.t)
    (imageFile : option PathObj) (outputFilename : string)
  : M (list string) :=
  title <- (if MediaConfig.askTitle config
            then input "Please provide a title for the song: "
            else ret (MediaConfig.title config)) ;;
  text <- lift (_str file) ;;
  let command := ["ffmpeg"; "-i"; text] in
  command <- lift
    match imageFile with
    | Some imageFile =>
        and_then (_str imageFile) (fun image =>
        Ok (command ++ ["-i"; image; "-map"; "0:0"; "-map"; "1:0"]))
    | None => Ok command
    end ;;
  let metadataMap :=
    [ ("title", title);
      ("artist", MediaConfig.artist config);
      ("genre", MediaConfig.genre config);
      ("track", MediaConfig.track config);
      ("album", MediaConfig.album config) ] in
  let command := fold_left extendTag metadataMap command in
  let command := command ++ ["-id3v2_version"; "3"] in
  let command := command ++ ["-c"; "copy"; outputFilename] in
  ret command.

Definition trimStr (filename : string) : string :=
  PyStr.replace "'" "" (PyStr.replace " " "_" filename).

Definition getOutputFilename (config : MediaConfig.t) (file : Path)
  : outcome string :=
  if MediaConfig.replaceWhitespace config then
    let path := as_posix file in
    match PyStr.rindex "/" path with
    | None => Raise ValueError
    | Some i =>
        Ok (trimStr (PyStr.slice_to i path ++ "/copy_" ++ name file)%string)
    end
  else Ok ("copy_" ++ name file)%string.

Definition cleanupFiles (file : PathObj) (copyFilename : string)
    (trimFilename : bool) : M unit :=
  command <- lift (getRmCommand file) ;;
  subprocess_run command ;;;
  newFilename <- lift
    (if negb trimFilename then _str file
     else and_then (_str file) (fun text => Ok (trimStr text))) ;;
  let command := getMvCommand copyFilename newFilename in
  subprocess_run command.

(** What [getOutputFilename] does to the object it is given: in
    normalize mode [file.as_posix()] fills the slot, otherwise only
    [file.name] is read and the object stays as it was. *)
Definition seenByOutputFilename (config : MediaConfig.t) (file : PathObj)
  : PathObj :=
  if MediaConfig.replaceWhitespace config then fill file else file.

(** The [for file in files] loop of [addMetadata], with the list
    [outputFiles] it grows.  Each file is an object of its own, as
    discovery makes them, so that filling the slot of one leaves the
    others and the image as they are. *)
Fixpoint addMetadata_loop (config : MediaConfig.t)
    (imageFile : option PathObj) (files : list PathObj)
    (outputFiles : list string) : M (list string) :=
  match files with
  | [] => ret outputFiles
  | file :: rest =>
      outputFilename <- lift (getOutputFilename config (value file)) ;;
      let file := seenByOutputFilename config file in
      let outputFiles := outputFiles ++ [outputFilename] in
      command <- getFfmpegCommand file config imageFile outputFilename ;;
      subprocess_run command ;;;
      (if negb (MediaConfig.cleanupFiles config) then ret tt
       else cleanupFiles file outputFilename
              (MediaConfig.replaceWhitespace config)) ;;;
      addMetadata_loop config imageFile rest outputFiles
  end.

Definition addMetadata (config : MediaConfig.t) (files : list PathObj)
    (imageFile : option PathObj) : M unit :=
  addMetadata_loop config imageFile files [] ;;; ret tt.

(** The objects behind the paths that [getFilePaths] returns: the path
    joined from a literal name is new, its slot empty; what a glob hands
    out has its slot in the state the world tells. *)
Definition discovered (dir filename img : string) (w : world)
    (r : list Path * option Path) : list PathObj * option PathObj :=
  let path := parse dir in
  (if PyStr.contains "*" filename
   then map (fun p => mkObj p (glob_slot w path filename p)) (fst r)
   else map fresh (fst r),
   option_map (fun p => mkObj p (glob_slot w path img p)) (snd r)).

Definition main (config : MediaConfig.t) : M unit :=
  r <- getFilePaths (MediaConfig.dir config) (MediaConfig.filename config)
         (MediaConfig.img config) ;;
  fun w =>
    let '(files, imageFile) :=
      discovered (MediaConfig.dir config) (MediaConfig.filename config)
        (MediaConfig.img config) w r in
    addMetadata config files imageFile w.

(** The [__main__] block, after [tyro.cli] has produced [config]. *)
Definition script (config : MediaConfig.t) : M unit :=
  assert (negb (MediaConfig.dir config =? "")) ;;;
  assert (negb (MediaConfig.img config =? "")
          || negb (MediaConfig.artist config =? "")
          || negb (MediaConfig.genre config =? "")
          || negb (MediaConfig.track config =? "")
          || negb (MediaConfig.album config =? "")
          || negb (MediaConfig.title config =? "")) ;;;
  assert (negb (MediaConfig.title config =? "")
          || MediaConfig.askTitle config) ;;;
  main config.

(** ** Vocabulary of the properties *)

(** The arguments that declare the inputs of the ffmpeg command, from the
    paths of the file and of the image. *)
Definition inputArgs (file : Path) (imageFile : option Path) : list string :=
  match imageFile with
  | Some im =>
      ["ffmpeg"; "-i"; str file; "-i"; str im;
       "-map"; "0:0"; "-map"; "1:0"]
  | None => ["ffmpeg"; "-i"; str file]
  end.

(** The slot of the image, if there is one, is filled. *)
Definition image_ready (imageFile : option PathObj) : bool :=
  match imageFile with
  | Some im => cached im
  | None => true
  end.

(** The slot of a file is filled when its command is built: it was
    filled from the start, or normalize mode asks for the text first. *)
Definition file_ready (config : MediaConfig.t) (file : PathObj) : bool :=
  MediaConfig.replaceWhitespace config || cached file.

(** The programs that a run starts can be started. *)
Definition programs_ready (config : MediaConfig.t) (w : world) : bool :=
  installed w "ffmpeg"
  && (negb (MediaConfig.cleanupFiles config)
      || (installed w "rm" && installed w "mv")).

(** The five tags in their fixed order, with the title in force. *)
Definition tagFields (title : string) (config : MediaConfig.t)
  : list (string * string) :=
  [ ("title", title);
    ("artist", MediaConfig.artist config);
    ("genre", MediaConfig.genre config);
    ("track", MediaConfig.track config);
    ("album", MediaConfig.album config) ].

Definition metadataPair (kv : string * string) : list string :=
  ["-metadata"; (fst kv ++ "=" ++ snd kv)%string].

Definition nonempty (kv : string * string) : bool :=
  negb (snd kv =? "").

(** One [-metadata key=value] pair per non-empty tag, in order. *)
Definition metadataArgs (title : string) (config : MediaConfig.t)
  : list string :=
  flat_map metadataPair (filter nonempty (tagFields title config)).

Definition outputArgs (outputFilename : string) : list string :=
  ["-id3v2_version"; "3"; "-c"; "copy"; outputFilename].

(** The title a command is built with: the next line of standard input
    under [askTitle], the configured one otherwise. *)
Definition resolvedTitle (config : MediaConfig.t) (w : world)
  : option string :=
  if MediaConfig.askTitle config then hd_error (stdin w)
  else Some (MediaConfig.title config).

Definition promptText : string := "Please provide a title for the song: ".

(** The world after a command was built. *)
Definition afterTitle (config : MediaConfig.t) (w : world) : world :=
  if MediaConfig.askTitle config
  then mkWorld (fs w) (glob_slot w) (installed w) (List.tl (stdin w))
         (log w ++ [Prompted promptText])
  else w.

(** The title of a configuration replaced, and no prompt. *)
Definition withTitle (t : string) (config : MediaConfig.t)
  : MediaConfig.t :=
  MediaConfig.mk (MediaConfig.dir config) (MediaConfig.img config)
    (MediaConfig.artist config) (MediaConfig.genre config)
    (MediaConfig.track config) (MediaConfig.album config) t
    (MediaConfig.filename config) false
    (MediaConfig.replaceWhitespace config)
    (MediaConfig.cleanupFiles config).

(** What one file adds to the log: the prompt if any, the ffmpeg run, and
    under the cleanup flag the removal and the renaming. *)
Definition fileEvents (config : MediaConfig.t) (imageFile : option Path)
    (x : Path * (string * string)) : list event :=
  let '(file, (out, t)) := x in
  (if MediaConfig.askTitle config then [Prompted promptText] else [])
  ++ [Ran (inputArgs file imageFile ++ metadataArgs t config
           ++ outputArgs out)]
  ++ (if MediaConfig.cleanupFiles config
      then [Ran ["rm"; str file];
            Ran ["mv"; out;
                 if MediaConfig.replaceWhitespace config
                 then trimStr (str file) else str file]]
      else []).

(** The titles of the first [n] files. *)
Definition titlesFor (config : MediaConfig.t) (w : world) (n : nat)
  : list string :=
  if MediaConfig.askTitle config then firstn n (stdin w)
  else repeat (MediaConfig.title config) n.

(** A path as pathlib builds them: a root among [""], ["/"], ["//"], and
    components that are non-empty, not ["."] and free of slashes. *)
Definition component_ok (x : string) : bool :=
  keep x && negb (PyStr.contains sep x).

Definition wf (p : Path) : bool :=
  ((root p =? "") || (root p =? "/") || (root p =? "//"))
  && forallb component_ok (tail p).

(** The sibling of a path whose name is that of the path with [m] in
    front. *)
Definition prefixed (m : string) (p : Path) : Path :=
  mkPath (root p) (removelast (tail p) ++ [(m ++ name p)%string]).

(** The path of the copy inside the directory of the source: the last
    component gets the marker in front. *)
Definition marked (p : Path) : Path := prefixed "copy_" p.

Definition is_whitespace (c : ascii) : bool :=
  (c =? " ")%char || (c =? "009")%char || (c =? "010")%char
  || (c =? "011")%char || (c =? "012")%char || (c =? "013")%char.

(** Whitespace and apostrophes removed: normalisation as worded in the
    specification. *)
Fixpoint stripped (s : string) : string :=
  match s with
  | EmptyString => EmptyString
  | String a s' =>
      if is_whitespace a || (a =? "'")%char then stripped s'
      else String a (stripped s')
  end.

(** Every space turned into an underscore and every apostrophe removed,
    character by character. *)
Fixpoint normalized (s : string) : string :=
  match s with
  | EmptyString => EmptyString
  | String a s' =>
      if (a =? " ")%char then String "_" (normalized s')
      else if (a =? "'")%char then normalized s'
      else String a (normalized s')
  end.

(** Free of spaces and apostrophes. *)
Fixpoint clean (s : string) : bool :=
  match s with
  | EmptyString => true
  | String a s' =>
      negb (a =? " ")%char && negb (a =? "'")%char && clean s'
  end.

(** A path whose root and components are free of spaces and apostrophes. *)
Definition clean_path (p : Path) : bool :=
  clean (root p) && forallb clean (tail p).

(** Output-name derivation on names, so that it can be iterated. *)
Definition derive (config : MediaConfig.t) (s : string) : outcome string :=
  getOutputFilename config (parse s).

Definition derive_twice (config : MediaConfig.t) (s : string)
  : outcome string :=
  match derive config s with
  | Ok r => derive config r
  | Raise e => Raise e
  end.

(** The image lookup that ends [getFilePaths], on its own. *)
Definition findImage (path : Path) (img : string) : M (option Path) :=
  if PyStr.truthy img
  then l <- glob path img ;; x <- item0 l ;; ret (Some x)
  else ret None.

(** ** Vocabulary of the further properties *)

(** The events that only look at the directory. *)
Definition is_glob (e : event) : bool :=
  match e with
  | Globbed _ _ => true
  | _ => false
  end.

(** The three start-up assertions in one test: a directory, and a title
    given directly, or the prompt flag together with some other field. *)
Definition valid (config : MediaConfig.t) : bool :=
  negb (MediaConfig.dir config =? "")
  && (negb (MediaConfig.title config =? "")
      || (MediaConfig.askTitle config
          && (negb (MediaConfig.img config =? "")
              || negb (MediaConfig.artist config =? "")
              || negb (MediaConfig.genre config =? "")
              || negb (MediaConfig.track config =? "")
              || negb (MediaConfig.album config =? "")))).

(** A path with a directory part: it has a root or at least two
    components. *)
Definition has_dir (p : Path) : bool :=
  negb (root p =? "") || (2 <=? List.length (tail p))%nat.

(** What one file adds to the log when neither the prompt nor the
    normalize flag is set. *)
Definition plainEvents (config : MediaConfig.t) (imageFile : option Path)
    (file : Path) : list event :=
  Ran (inputArgs file imageFile
       ++ metadataArgs (MediaConfig.title config) config
       ++ outputArgs ("copy_" ++ name file)%string)
  :: (if MediaConfig.cleanupFiles config
      then [Ran ["rm"; str file];
            Ran ["mv"; ("copy_" ++ name file)%string; str file]]
      else []).

(** The world after one file went through the loop with the output name
    [out] and the title [t]. *)
Definition afterFile (config : MediaConfig.t) (imageFile : option Path)
    (file : Path) (out t : string) (w : world) : world :=
  mkWorld (fs w) (glob_slot w) (installed w) (stdin (afterTitle config w))
    (log w ++ fileEvents config imageFile (file, (out, t))).

(** The number of tags that are set. *)
Definition tagCount (title : string) (config : MediaConfig.t) : nat :=
  List.length (filter nonempty (tagFields title config)).

(** ** A run of the script on a small directory *)

Module Demo.

Definition songs : Path -> string -> option (list Path) :=
  fun d pat =>
    if (str d =? "songs") && (pat =? "*.mp3")
    then Some [mkPath "" ["songs"; "a.mp3"]; mkPath "" ["songs"; "b.mp3"]]
    else Some [].

(** Every program can be started, and glob hands out paths with their
    slot filled. *)
Definition host : string -> bool := fun _ => true.
Definition filled : Path -> string -> Path -> bool := fun _ _ _ => true.

Definition w0 : world := mkWorld songs filled host [] [].

(** The same directory under an interpreter whose glob hands out paths
    with an empty slot. *)
Definition unfilled : Path -> string -> Path -> bool := fun _ _ _ => false.

Definition w0_unfilled : world := mkWorld songs unfilled host [] [].

(** The same directory without ffmpeg. *)
Definition w0_bare : world :=
  mkWorld songs filled (fun program => negb (program =? "ffmpeg")) [] [].

Definition config : MediaConfig.t :=
  MediaConfig.mk "songs/" "" "" "" "" "" "Demo" "*.mp3" false false false.

(** A literal file name with a prompted title, normalisation and
    cleanup. *)
Definition config_literal : MediaConfig.t :=
  MediaConfig.mk "my songs" "" "Someone" "" "" "" "" "it's a b.mp3"
    true true true.

(** A cover pattern that matches nothing. *)
Definition config_cover : MediaConfig.t :=
  MediaConfig.mk "songs" "*.png" "" "" "" "" "Demo" "a.mp3"
    false false false.

Definition w_prompt : world :=
  mkWorld songs filled host ["First"; "Second"] [].

(** Normalize mode alone. *)
Definition config_normalize : MediaConfig.t :=
  MediaConfig.mk "songs" "" "" "" "" "" "Demo" "*.mp3" false true false.

End Demo.

(** The same directory with two cover images. *)
Module DemoCover.

Definition songs : Path -> string -> option (list Path) :=
  fun d pat =>
    if (str d =? "songs") && (pat =? "*.png")
    then Some [mkPath "" ["songs"; "cover.png"];
               mkPath "" ["songs"; "other.png"]]
    else Demo.songs d pat.

Definition w0 : world := mkWorld songs Demo.filled Demo.host [] [].

End DemoCover.

Example demo_run :
  script Demo.config Demo.w0 =
  (Ok tt,
   mkWorld Demo.songs Demo.filled Demo.host []
     [ Globbed (mkPath "" ["songs"]) "*.mp3";
       Ran ["ffmpeg"; "-i"; "songs/a.mp3"; "-metadata"; "title=Demo";
            "-id3v2_version"; "3"; "-c"; "copy"; "copy_a.mp3"];
       Ran ["ffmpeg"; "-i"; "songs/b.mp3"; "-metadata"; "title=Demo";
            "-id3v2_version"; "3"; "-c"; "copy"; "copy_b.mp3"] ]).
Proof. reflexivity. Qed.

Example demo_run_unfilled :
  script Demo.config Demo.w0_unfilled =
  (Raise AttributeError,
   mkWorld Demo.songs Demo.unfilled Demo.host []
     [Globbed (mkPath "" ["songs"]) "*.mp3"]).
Proof. reflexivity. Qed.

Example demo_run_bare :
  script Demo.config Demo.w0_bare =
  (Raise FileNotFoundError,
   mkWorld Demo.songs Demo.filled (installed Demo.w0_bare) []
     [Globbed (mkPath "" ["songs"]) "*.mp3"]).
Proof. reflexivity. Qed.

Example demo_literal_run :
  script Demo.config_literal Demo.w_prompt =
  (Ok tt,
   mkWorld Demo.songs Demo.filled Demo.host ["Second"]
     [ Prompted promptText;
       Ran ["ffmpeg"; "-i"; "my songs/it's a b.mp3";
            "-metadata"; "title=First"; "-metadata"; "artist=Someone";
            "-id3v2_version"; "3"; "-c"; "copy";
            "my_songs/copy_its_a_b.mp3"];
       Ran ["rm"; "my songs/it's a b.mp3"];
       Ran ["mv"; "my_songs/copy_its_a_b.mp3"; "my_songs/its_a_b.mp3"] ]).
Proof. reflexivity. Qed.

Example demo_literal_plain_run :
  script (MediaConfig.mk "songs" "" "" "" "" "" "Demo" "a.mp3"
            false false false) Demo.w0 =
  (Raise AttributeError, Demo.w0).
Proof. reflexivity. Qed.

Example demo_cover_run :
  script Demo.config_cover Demo.w0 =
  (Raise IndexError,
   mkWorld Demo.songs Demo.filled Demo.host []
     [Globbed (mkPath "" ["songs"]) "*.png"]).
Proof. reflexivity. Qed.

(** ** Command synthesis *)

Lemma truthy_nonempty (s : string) : PyStr.truthy s = negb (s =? "").
Proof. destruct s; reflexivity. Qed.

Lemma truthy_false (s : string) : PyStr.truthy s = false <-> s = "".
Proof. destruct s; simpl; split; congruence. Qed.

(** The loop over the tag map appends the pairs of the non-empty tags. *)
Lemma fold_extendTag (kvs : list (string * string)) :
  forall command,
    fold_left extendTag kvs command =
    command ++ flat_map metadataPair (filter nonempty kvs).
Proof.
  induction kvs as [|[key value] kvs IH]; intros command; simpl.
  - now rewrite app_nil_r.
  - rewrite IH. unfold nonempty at 2. simpl.
    rewrite truthy_nonempty.
    destruct (value =? ""); simpl; [reflexivity|].
    now rewrite <- app_assoc.
Qed.

(** What building a command gives once a title is there: the command in
    closed form when the slots it reads are filled, [AttributeError]
    otherwise, and in both cases the prompt already done. *)
Lemma getFfmpegCommand_outcome (file : PathObj) (config : MediaConfig.t)
    (imageFile : option PathObj) (out : string) (w : world) (t : string) :
  resolvedTitle config w = Some t ->
  getFfmpegCommand file config imageFile out w =
  (if cached file && image_ready imageFile
   then Ok (inputArgs (value file) (option_map value imageFile)
            ++ metadataArgs t config ++ outputArgs out)
   else Raise AttributeError,
   afterTitle config w).
Proof.
  intros Ht. unfold getFfmpegCommand, resolvedTitle, afterTitle in *.
  assert (E : forall (pre : list string) (t0 : string),
    (fold_left extendTag (tagFields t0 config) pre
     ++ ["-id3v2_version"; "3"]) ++ ["-c"; "copy"; out] =
    pre ++ metadataArgs t0 config ++ outputArgs out).
  { intros pre t0. rewrite fold_extendTag. unfold metadataArgs, outputArgs.
    now rewrite <- !app_assoc. }
  destruct (MediaConfig.askTitle config).
  - destruct (stdin w) as [|line rest] eqn:Hin; [discriminate|].
    injection Ht as ->. unfold bind at 1, input. rewrite Hin.
    cbv beta iota. simpl List.tl.
    unfold bind, lift, ret, _str.
    destruct (cached file); [|reflexivity].
    destruct imageFile as [im|]; cbn [and_then image_ready andb option_map].
    + destruct (cached im); cbn [and_then]; [|reflexivity].
      fold (tagFields t config). now rewrite E.
    + fold (tagFields t config). now rewrite E.
  - injection Ht as <-. unfold bind at 1, ret at 1. cbv beta iota.
    unfold bind, lift, ret, _str.
    destruct (cached file); [|reflexivity].
    destruct imageFile as [im|]; cbn [and_then image_ready andb option_map].
    + destruct (cached im); cbn [and_then]; [|reflexivity].
      fold (tagFields (MediaConfig.title config) config). now rewrite E.
    + fold (tagFields (MediaConfig.title config) config). now rewrite E.
Qed.

(** Without a title to read, building a command ends at the prompt. *)
Lemma getFfmpegCommand_eof (file : PathObj) (config : MediaConfig.t)
    (imageFile : option PathObj) (out : string) (w : world) :
  resolvedTitle config w = None ->
  getFfmpegCommand file config imageFile out w =
  (Raise EOFError, record (Prompted promptText) w).
Proof.
  unfold resolvedTitle, getFfmpegCommand, bind, input.
  destruct (MediaConfig.askTitle config); [|discriminate].
  destruct (stdin w); [reflexivity | discriminate].
Qed.

(** The command in closed form, and what building it does to the world. *)
Lemma getFfmpegCommand_closed (file : PathObj) (config : MediaConfig.t)
    (imageFile : option PathObj) (out : string) (w : world) (t : string) :
  resolvedTitle config w = Some t ->
  cached file = true ->
  image_ready imageFile = true ->
  getFfmpegCommand file config imageFile out w =
  (Ok (inputArgs (value file) (option_map value imageFile)
       ++ metadataArgs t config ++ outputArgs out),
   afterTitle config w).
Proof.
  intros Ht Hf Hi.
  now rewrite (getFfmpegCommand_outcome file config imageFile out w t Ht),
    Hf, Hi.
Qed.

(** A command that was built was built from a title and filled slots. *)
Lemma getFfmpegCommand_returns (file : PathObj) (config : MediaConfig.t)
    (imageFile : option PathObj) (out : string) (w w' : world)
    (cmd : list string) :
  getFfmpegCommand file config imageFile out w = (Ok cmd, w') ->
  exists t,
    resolvedTitle config w = Some t
    /\ cached file = true /\ image_ready imageFile = true
    /\ cmd = inputArgs (value file) (option_map value imageFile)
             ++ metadataArgs t config ++ outputArgs out.
Proof.
  intros H. destruct (resolvedTitle config w) as [t|] eqn:Ht.
  - rewrite (getFfmpegCommand_outcome file config imageFile out w t Ht) in H.
    exists t. destruct (cached file); [|discriminate].
    destruct (image_ready imageFile); [|discriminate].
    inversion H. now repeat split.
  - rewrite (getFfmpegCommand_eof file config imageFile out w Ht) in H.
    discriminate.
Qed.

(** No tag pair is an input or a mapping flag. *)
Lemma metadataArgs_flags (t : string) (config : MediaConfig.t) :
  Forall (fun a => a <> "-i" /\ a <> "-map") (metadataArgs t config).
Proof.
  unfold metadataArgs, tagFields. simpl.
  repeat match goal with
  | |- context [nonempty ?kv] => destruct (nonempty kv); simpl
  end;
  repeat constructor; discriminate.
Qed.

(** C1. Each of title, artist, genre, track and album that is non-empty
    gives exactly one [-metadata key=value] pair of the synthesized
    command, the pairs stand in that order between the input arguments and
    the output arguments, and an empty tag gives nothing.  The title is
    the one in force: the configured one, or the prompted one under
    [askTitle].  This holds of every command that is synthesized, and one
    is synthesized whenever a title is there and the [_str] slots that
    are read are filled; with an empty slot no command is synthesized and
    [AttributeError] is raised. *)
Theorem metadata_arguments_in_order (file : PathObj) (config : MediaConfig.t)
    (imageFile : option PathObj) (out : string) (w : world) :
  (forall cmd w',
     getFfmpegCommand file config imageFile out w = (Ok cmd, w') ->
     exists t,
       resolvedTitle config w = Some t
       /\ cmd =
          inputArgs (value file) (option_map value imageFile)
          ++ flat_map
               (fun kv => ["-metadata"; (fst kv ++ "=" ++ snd kv)%string])
               (filter (fun kv => negb (snd kv =? ""))
                  [ ("title", t);
                    ("artist", MediaConfig.artist config);
                    ("genre", MediaConfig.genre config);
                    ("track", MediaConfig.track config);
                    ("album", MediaConfig.album config) ])
          ++ outputArgs out)
  /\ (forall t,
        resolvedTitle config w = Some t ->
        exists w',
          getFfmpegCommand file config imageFile out w =
          (if cached file && image_ready imageFile
           then Ok (inputArgs (value file) (option_map value imageFile)
                    ++ flat_map
                         (fun kv =>
                            ["-metadata"; (fst kv ++ "=" ++ snd kv)%string])
                         (filter (fun kv => negb (snd kv =? ""))
                            [ ("title", t);
                              ("artist", MediaConfig.artist config);
                              ("genre", MediaConfig.genre config);
                              ("track", MediaConfig.track config);
                              ("album", MediaConfig.album config) ])
                    ++ outputArgs out)
           else Raise AttributeError,
           w')).
Proof.
  split.
  - intros cmd w' H.
    destruct (getFfmpegCommand_returns _ _ _ _ _ _ _ H)
      as (t & Ht & _ & _ & ->).
    exists t. now split.
  - intros t Ht. exists (afterTitle config w).
    now rewrite (getFfmpegCommand_outcome file config imageFile out w t Ht).
Qed.

Lemma metadata_arguments_in_order_witness :
  exists w',
    getFfmpegCommand (mkObj (mkPath "" ["songs"; "a.mp3"]) true)
      (MediaConfig.mk "songs" "" "Someone" "" "7" "" "Demo" "*.mp3"
         false false false)
      None "copy_a.mp3" Demo.w0 =
    (Ok ["ffmpeg"; "-i"; "songs/a.mp3";
         "-metadata"; "title=Demo"; "-metadata"; "artist=Someone";
         "-metadata"; "track=7";
         "-id3v2_version"; "3"; "-c"; "copy"; "copy_a.mp3"],
     w').
Proof.
  exact (proj2 (metadata_arguments_in_order
                  (mkObj (mkPath "" ["songs"; "a.mp3"]) true)
                  (MediaConfig.mk "songs" "" "Someone" "" "7" "" "Demo"
                     "*.mp3" false false false)
                  None "copy_a.mp3" Demo.w0) "Demo" eq_refl).
Defined.

(** C6. With a cover image the command declares it as a second input and
    carries the two mappings [-map 0:0] and [-map 1:0], all of them ahead
    of the tag pairs; without one the tag pairs follow the first input at
    once, and no tag pair is an [-i] or a [-map].  This holds of every
    command that is synthesized, and one is synthesized whenever a title
    is there and the [_str] slots of the file and of the image are
    filled; with an empty slot [AttributeError] is raised instead. *)
Theorem cover_image_arguments (file : PathObj) (config : MediaConfig.t)
    (imageFile : option PathObj) (out : string) (w : world) :
  (forall cmd w',
     getFfmpegCommand file config imageFile out w = (Ok cmd, w') ->
     exists t meta,
       cmd =
       match imageFile with
       | Some im =>
           ["ffmpeg"; "-i"; str (value file); "-i"; str (value im);
            "-map"; "0:0"; "-map"; "1:0"]
       | None => ["ffmpeg"; "-i"; str (value file)]
       end
       ++ meta ++ ["-id3v2_version"; "3"; "-c"; "copy"; out]
       /\ meta = metadataArgs t config
       /\ Forall (fun a => a <> "-i" /\ a <> "-map") meta)
  /\ (forall t,
        resolvedTitle config w = Some t ->
        exists w',
          getFfmpegCommand file config imageFile out w =
          (if cached file && image_ready imageFile
           then Ok (match imageFile with
                    | Some im =>
                        ["ffmpeg"; "-i"; str (value file);
                         "-i"; str (value im);
                         "-map"; "0:0"; "-map"; "1:0"]
                    | None => ["ffmpeg"; "-i"; str (value file)]
                    end
                    ++ metadataArgs t config
                    ++ ["-id3v2_version"; "3"; "-c"; "copy"; out])
           else Raise AttributeError,
           w')).
Proof.
  split.
  - intros cmd w' H.
    destruct (getFfmpegCommand_returns _ _ _ _ _ _ _ H)
      as (t & Ht & _ & _ & ->).
    exists t, (metadataArgs t config). split; [|split].
    + now destruct imageFile.
    + reflexivity.
    + apply metadataArgs_flags.
  - intros t Ht. exists (afterTitle config w).
    rewrite (getFfmpegCommand_outcome file config imageFile out w t Ht).
    now destruct imageFile.
Qed.

Lemma cover_image_arguments_witness :
  exists w',
    getFfmpegCommand (mkObj (mkPath "" ["songs"; "a.mp3"]) true) Demo.config
      (Some (mkObj (mkPath "" ["songs"; "cover.png"]) true)) "copy_a.mp3"
      Demo.w0 =
    (Ok ["ffmpeg"; "-i"; "songs/a.mp3"; "-i"; "songs/cover.png";
         "-map"; "0:0"; "-map"; "1:0"; "-metadata"; "title=Demo";
         "-id3v2_version"; "3"; "-c"; "copy"; "copy_a.mp3"],
     w').
Proof.
  exact (proj2 (cover_image_arguments
                  (mkObj (mkPath "" ["songs"; "a.mp3"]) true) Demo.config
                  (Some (mkObj (mkPath "" ["songs"; "cover.png"]) true))
                  "copy_a.mp3" Demo.w0) "Demo" eq_refl).
Defined.

Lemma metadataArgs_empty_title (config : MediaConfig.t) :
  metadataArgs "" config =
  flat_map metadataPair
    (filter nonempty
       [ ("artist", MediaConfig.artist config);
         ("genre", MediaConfig.genre config);
         ("track", MediaConfig.track config);
         ("album", MediaConfig.album config) ]).
Proof. reflexivity. Qed.

Lemma metadataArgs_no_title (config : MediaConfig.t) :
  Forall (fun a => String.prefix "title=" a = false)
    (metadataArgs "" config).
Proof.
  rewrite metadataArgs_empty_title. simpl.
  repeat match goal with
  | |- context [nonempty ?kv] => destruct (nonempty kv); simpl
  end;
  repeat constructor.
Qed.

(** C10. Under [askTitle] the line read from standard input takes the
    place of the configured title before the emptiness test: what
    building the command gives is what it gives for the configuration
    with that line as title, and when the line is empty the tag pairs are
    those of artist, genre, track and album alone, none of them a
    [title=] argument, whatever the configured title.  The command is
    synthesized when the [_str] slots that are read are filled;
    otherwise the line is read and [AttributeError] is raised. *)
Theorem prompted_title_replaces_configured (file : PathObj)
    (config : MediaConfig.t) (imageFile : option PathObj) (out : string)
    (w : world) (line : string) (rest : list string) :
  MediaConfig.askTitle config = true ->
  stdin w = line :: rest ->
  exists w',
    getFfmpegCommand file config imageFile out w =
    (if cached file && image_ready imageFile
     then Ok (inputArgs (value file) (option_map value imageFile)
              ++ metadataArgs line config ++ outputArgs out)
     else Raise AttributeError, w')
    /\ stdin w' = rest
    /\ getFfmpegCommand file (withTitle line config) imageFile out w =
       (if cached file && image_ready imageFile
        then Ok (inputArgs (value file) (option_map value imageFile)
                 ++ metadataArgs line config ++ outputArgs out)
        else Raise AttributeError, w)
    /\ (line = "" ->
        metadataArgs line config =
        flat_map metadataPair
          (filter nonempty
             [ ("artist", MediaConfig.artist config);
               ("genre", MediaConfig.genre config);
               ("track", MediaConfig.track config);
               ("album", MediaConfig.album config) ])
        /\ Forall (fun a => String.prefix "title=" a = false)
             (metadataArgs line config)).
Proof.
  intros Hask Hin. exists (afterTitle config w).
  split; [|split; [|split]].
  - apply getFfmpegCommand_outcome. unfold resolvedTitle.
    now rewrite Hask, Hin.
  - unfold afterTitle. rewrite Hask. simpl. now rewrite Hin.
  - now rewrite (getFfmpegCommand_outcome file (withTitle line config)
                   imageFile out w line eq_refl).
  - intros ->. split.
    + apply metadataArgs_empty_title.
    + apply metadataArgs_no_title.
Qed.

Lemma prompted_title_replaces_configured_witness :
  exists w',
    getFfmpegCommand (mkObj (mkPath "" ["songs"; "a.mp3"]) true)
      (MediaConfig.mk "songs" "" "Someone" "" "" "" "Configured" "*.mp3"
         true false false)
      None "copy_a.mp3"
      (mkWorld Demo.songs Demo.filled Demo.host [""; "Next"] []) =
    (Ok ["ffmpeg"; "-i"; "songs/a.mp3"; "-metadata"; "artist=Someone";
         "-id3v2_version"; "3"; "-c"; "copy"; "copy_a.mp3"], w').
Proof.
  destruct (prompted_title_replaces_configured
              (mkObj (mkPath "" ["songs"; "a.mp3"]) true)
              (MediaConfig.mk "songs" "" "Someone" "" "" "" "Configured"
                 "*.mp3" true false false)
              None "copy_a.mp3"
              (mkWorld Demo.songs Demo.filled Demo.host [""; "Next"] [])
              "" ["Next"] eq_refl eq_refl) as [w' [H _]].
  exists w'. exact H.
Defined.

(** ** Start-up validation *)

(** C7. When the directory is empty, or image, artist, genre, track, album
    and title are all empty, or the title is empty without the prompt
    flag, the run stops on an assertion with the world untouched: nothing
    was globbed, nothing read and no process run. *)
Theorem startup_validation_aborts (config : MediaConfig.t) (w : world) :
  MediaConfig.dir config = ""
  \/ (MediaConfig.img config = "" /\ MediaConfig.artist config = ""
      /\ MediaConfig.genre config = "" /\ MediaConfig.track config = ""
      /\ MediaConfig.album config = "" /\ MediaConfig.title config = "")
  \/ (MediaConfig.title config = ""
      /\ MediaConfig.askTitle config = false) ->
  script config w = (Raise AssertionError, w).
Proof.
  unfold script, bind, assert.
  intros [Hd | [(Hi & Ha & Hg & Ht & Hl & Hn) | (Hn & Hk)]].
  - now rewrite Hd.
  - rewrite Hi, Ha, Hg, Ht, Hl, Hn. simpl.
    now destruct (negb (MediaConfig.dir config =? "")).
  - rewrite Hn, Hk. simpl. rewrite !orb_false_r.
    destruct (negb (MediaConfig.dir config =? "")); [|reflexivity].
    simpl ret.
    now destruct (negb (MediaConfig.img config =? "")
               || negb (MediaConfig.artist config =? "")
               || negb (MediaConfig.genre config =? "")
               || negb (MediaConfig.track config =? "")
               || negb (MediaConfig.album config =? "")).
Qed.

Lemma startup_validation_aborts_witness :
  script (MediaConfig.mk "songs" "" "Someone" "" "" "" "" "*.mp3"
            false false false) Demo.w0
  = (Raise AssertionError, Demo.w0).
Proof.
  apply (startup_validation_aborts
           (MediaConfig.mk "songs" "" "Someone" "" "" "" "" "*.mp3"
              false false false) Demo.w0).
  right. right. split; reflexivity.
Defined.

(** ** File discovery *)

(** Once the list of files is known and non-empty, discovery is the image
    lookup. *)
Lemma getFilePaths_literal (dir filename img : string) (w : world) :
  PyStr.contains "*" filename = false ->
  getFilePaths dir filename img w =
  (imageFile <- findImage (parse dir) img ;;
   ret ([joinpath (parse dir) filename], imageFile)) w.
Proof.
  intros Hs. unfold getFilePaths, findImage. rewrite Hs. reflexivity.
Qed.

Lemma getFilePaths_wildcard (dir filename img : string) (w : world)
    (l : list Path) :
  PyStr.contains "*" filename = true ->
  fs w (parse dir) filename = Some l ->
  getFilePaths dir filename img w =
  match l with
  | [] => (Raise AssertionError, record (Globbed (parse dir) filename) w)
  | _ =>
      (imageFile <- findImage (parse dir) img ;; ret (l, imageFile))
        (record (Globbed (parse dir) filename) w)
  end.
Proof.
  intros Hs Hl. unfold getFilePaths, findImage, bind at 1, glob at 1.
  rewrite Hs, Hl. destruct l; reflexivity.
Qed.

Lemma findImage_none (path : Path) (w : world) :
  findImage path "" w = (Ok None, w).
Proof. reflexivity. Qed.

Lemma findImage_first (path : Path) (img : string) (w : world)
    (m : Path) (ms : list Path) :
  img <> "" ->
  fs w path img = Some (m :: ms) ->
  findImage path img w = (Ok (Some m), record (Globbed path img) w).
Proof.
  intros Hi Hm. unfold findImage, bind, glob.
  destruct img; [congruence|]. simpl. now rewrite Hm.
Qed.

(** The image lookup fails only on a pattern that was given and that
    matches nothing or is rejected, and never on an assertion. *)
Lemma findImage_raises (path : Path) (img : string) (w w' : world)
    (e : exn) :
  findImage path img w = (Raise e, w') ->
  img <> "" /\ w' = record (Globbed path img) w
  /\ ((fs w path img = Some [] /\ e = IndexError)
      \/ (fs w path img = None /\ e = PatternError)).
Proof.
  unfold findImage, bind, glob.
  destruct img; simpl; [discriminate|].
  destruct (fs w path _) as [[|m ms]|]; simpl; intros H; inversion H;
    subst; (split; [discriminate|]); split; auto.
Qed.

(** C4. For a specifier with a wildcard, the files of discovery are the
    glob expansion of the specifier in the directory: an empty expansion
    stops the run on the assertion, a non-empty one is returned as it is
    (with no image at once, with an image after its lookup), and whatever
    discovery returns has the expansion as its files. *)
Theorem wildcard_discovery (dir filename img : string) (w : world)
    (l : list Path) :
  PyStr.contains "*" filename = true ->
  fs w (parse dir) filename = Some l ->
  (l = [] ->
   getFilePaths dir filename img w =
   (Raise AssertionError, record (Globbed (parse dir) filename) w))
  /\ (l <> [] -> img = "" ->
      getFilePaths dir filename img w =
      (Ok (l, None), record (Globbed (parse dir) filename) w))
  /\ (l <> [] -> img <> "" ->
      forall m ms, fs w (parse dir) img = Some (m :: ms) ->
      getFilePaths dir filename img w =
      (Ok (l, Some m),
       record (Globbed (parse dir) img)
         (record (Globbed (parse dir) filename) w)))
  /\ (forall files imageFile w',
      getFilePaths dir filename img w = (Ok (files, imageFile), w') ->
      files = l /\ l <> []).
Proof.
  intros Hs Hl.
  rewrite (getFilePaths_wildcard dir filename img w l Hs Hl).
  repeat split.
  - now intros ->.
  - intros Hne ->. destruct l; [congruence|]. reflexivity.
  - intros Hne Hi m ms Hm. destruct l as [|f fsl]; [congruence|].
    unfold bind.
    rewrite (findImage_first (parse dir) img
               (record (Globbed (parse dir) filename) w) m ms Hi Hm).
    reflexivity.
  - destruct l; [discriminate|]. unfold bind, ret in H.
    destruct (findImage _ _ _) as [[im|e] w1]; now inversion H.
  - destruct l; [discriminate|]. discriminate.
Qed.

Lemma wildcard_discovery_witness :
  getFilePaths "songs/" "*.mp3" "" Demo.w0 =
  (Ok ([mkPath "" ["songs"; "a.mp3"]; mkPath "" ["songs"; "b.mp3"]], None),
   record (Globbed (parse "songs/") "*.mp3") Demo.w0)
  /\ getFilePaths "songs/" "*.flac" "" Demo.w0 =
     (Raise AssertionError,
      record (Globbed (parse "songs/") "*.flac") Demo.w0).
Proof.
  split.
  - apply (wildcard_discovery "songs/" "*.mp3" "" Demo.w0
             [mkPath "" ["songs"; "a.mp3"]; mkPath "" ["songs"; "b.mp3"]]
             eq_refl eq_refl); [discriminate | reflexivity].
  - apply (wildcard_discovery "songs/" "*.flac" "" Demo.w0 []
             eq_refl eq_refl). reflexivity.
Defined.


(** ** The loop over the files and the cleanup *)

Lemma titlesFor_step (config : MediaConfig.t) (w : world) (n : nat) :
  (MediaConfig.askTitle config = true -> S n <= List.length (stdin w)) ->
  exists t,
    resolvedTitle config w = Some t
    /\ titlesFor config w (S n) = t :: titlesFor config (afterTitle config w) n
    /\ (MediaConfig.askTitle config = true ->
        n <= List.length (stdin (afterTitle config w))).
Proof.
  unfold resolvedTitle, titlesFor, afterTitle. intros Hlen.
  destruct (MediaConfig.askTitle config).
  - specialize (Hlen eq_refl).
    destruct (stdin w) as [|line rest]; simpl in Hlen; [lia|].
    exists line. simpl. repeat split. lia.
  - exists (MediaConfig.title config). repeat split. discriminate.
Qed.

Lemma titlesFor_stdin (config : MediaConfig.t) (w w' : world) (n : nat) :
  stdin w' = stdin w -> titlesFor config w' n = titlesFor config w n.
Proof. unfold titlesFor. now intros ->. Qed.

Lemma flat_map_step {A B} (f : A -> list B) (x : A) (l : list A) :
  flat_map f (x :: l) = f x ++ flat_map f l.
Proof. reflexivity. Qed.

Lemma seen_cached (config : MediaConfig.t) (file : PathObj) :
  cached (seenByOutputFilename config file) = file_ready config file.
Proof.
  unfold seenByOutputFilename, file_ready.
  now destruct (MediaConfig.replaceWhitespace config).
Qed.

Lemma seen_value (config : MediaConfig.t) (file : PathObj) :
  value (seenByOutputFilename config file) = value file.
Proof.
  unfold seenByOutputFilename.
  now destruct (MediaConfig.replaceWhitespace config).
Qed.

Lemma afterTitle_host (config : MediaConfig.t) (w : world) :
  fs (afterTitle config w) = fs w
  /\ glob_slot (afterTitle config w) = glob_slot w
  /\ installed (afterTitle config w) = installed w.
Proof. unfold afterTitle. now destruct (MediaConfig.askTitle config). Qed.

Lemma subprocess_run_ffmpeg (file : Path) (imageFile : option Path)
    (rest : list string) (w : world) :
  installed w "ffmpeg" = true ->
  subprocess_run (inputArgs file imageFile ++ rest) w =
  (Ok tt, record (Ran (inputArgs file imageFile ++ rest)) w).
Proof.
  intros H. unfold subprocess_run. destruct imageFile; simpl; now rewrite H.
Qed.

(** Cleanup for a file whose slot is filled, with [rm] and [mv] at hand:
    the removal, then the renaming. *)
Lemma cleanupFiles_run (file : PathObj) (out : string) (trim : bool)
    (w : world) :
  cached file = true ->
  installed w "rm" = true ->
  installed w "mv" = true ->
  cleanupFiles file out trim w =
  (Ok tt,
   record (Ran ["mv"; out;
                if trim then trimStr (str (value file))
                else str (value file)])
     (record (Ran ["rm"; str (value file)]) w)).
Proof.
  intros Hc Hrm Hmv.
  unfold cleanupFiles, getRmCommand, getMvCommand, bind, lift, _str,
    subprocess_run, and_then.
  rewrite Hc, Hrm. simpl. rewrite Hmv. now destruct trim.
Qed.

Lemma cleanupFiles_no_rm (file : PathObj) (out : string) (trim : bool)
    (w : world) :
  cached file = true ->
  installed w "rm" = false ->
  cleanupFiles file out trim w = (Raise FileNotFoundError, w).
Proof.
  intros Hc Hrm.
  unfold cleanupFiles, getRmCommand, bind, lift, _str, subprocess_run,
    and_then.
  now rewrite Hc, Hrm.
Qed.

Lemma cleanupFiles_no_mv (file : PathObj) (out : string) (trim : bool)
    (w : world) :
  cached file = true ->
  installed w "rm" = true ->
  installed w "mv" = false ->
  cleanupFiles file out trim w =
  (Raise FileNotFoundError, record (Ran ["rm"; str (value file)]) w).
Proof.
  intros Hc Hrm Hmv.
  unfold cleanupFiles, getRmCommand, getMvCommand, bind, lift, _str,
    subprocess_run, and_then.
  rewrite Hc, Hrm. simpl. rewrite Hmv. now destruct trim.
Qed.

(** One turn of the loop for a file whose name can be derived and whose
    title can be read, with the slots filled and the programs at hand. *)
Lemma addMetadata_loop_step (config : MediaConfig.t)
    (imageFile : option PathObj) (file : PathObj) (rest : list PathObj)
    (acc : list string) (w : world) (out t : string) :
  getOutputFilename config (value file) = Ok out ->
  resolvedTitle config w = Some t ->
  file_ready config file = true ->
  image_ready imageFile = true ->
  programs_ready config w = true ->
  addMetadata_loop config imageFile (file :: rest) acc w =
  addMetadata_loop config imageFile rest (acc ++ [out])
    (afterFile config (option_map value imageFile) (value file) out t w).
Proof.
  intros Hout Ht Hf Hi Hp. simpl addMetadata_loop.
  unfold bind at 1, lift at 1. rewrite Hout. cbv beta iota.
  unfold bind at 1.
  rewrite (getFfmpegCommand_closed (seenByOutputFilename config file) config
             imageFile out w t Ht)
    by (try rewrite seen_cached; assumption).
  rewrite seen_value. cbv beta iota.
  destruct (afterTitle_host config w) as (Hfs & Hgs & Hins).
  unfold programs_ready in Hp. apply andb_prop in Hp.
  destruct Hp as [Hff Hcl].
  unfold bind at 1.
  rewrite subprocess_run_ffmpeg by (now rewrite Hins).
  cbv beta iota.
  set (cmd := inputArgs (value file) (option_map value imageFile)
              ++ metadataArgs t config ++ outputArgs out).
  unfold bind at 1.
  destruct (MediaConfig.cleanupFiles config) eqn:Hclean; cbn [negb].
  - simpl in Hcl. apply andb_prop in Hcl. destruct Hcl as [Hrm Hmv].
    rewrite cleanupFiles_run;
      [| now rewrite seen_cached
       | unfold record; simpl; now rewrite Hins
       | unfold record; simpl; now rewrite Hins].
    rewrite seen_value. f_equal.
    unfold afterFile, fileEvents, record. simpl.
    rewrite Hfs, Hgs, Hins, Hclean. fold cmd. f_equal.
    unfold afterTitle.
    destruct (MediaConfig.askTitle config),
             (MediaConfig.replaceWhitespace config); simpl;
      now rewrite <- ?app_assoc.
  - unfold ret. f_equal.
    unfold afterFile, fileEvents, record. simpl.
    rewrite Hfs, Hgs, Hins, Hclean. fold cmd. f_equal.
    unfold afterTitle.
    destruct (MediaConfig.askTitle config); simpl;
      now rewrite <- ?app_assoc.
Qed.

Lemma afterFile_host (config : MediaConfig.t) (imageFile : option Path)
    (file : Path) (out t : string) (w : world) :
  programs_ready config (afterFile config imageFile file out t w)
  = programs_ready config w.
Proof. reflexivity. Qed.

(** One turn of the loop in every case with a name and a title: it goes
    through, or it raises with the events of the file logged up to the
    step that failed. *)
Lemma addMetadata_loop_step_cases (config : MediaConfig.t)
    (imageFile : option PathObj) (file : PathObj) (rest : list PathObj)
    (acc : list string) (w : world) (out t : string) :
  getOutputFilename config (value file) = Ok out ->
  resolvedTitle config w = Some t ->
  addMetadata_loop config imageFile (file :: rest) acc w =
  addMetadata_loop config imageFile rest (acc ++ [out])
    (afterFile config (option_map value imageFile) (value file) out t w)
  \/ exists e w' n,
       addMetadata_loop config imageFile (file :: rest) acc w = (Raise e, w')
       /\ log w' =
          log w ++ firstn n (fileEvents config (option_map value imageFile)
                               (value file, (out, t))).
Proof.
  intros Hout Ht.
  destruct (afterTitle_host config w) as (Hfs & Hgs & Hins).
  assert (Hlog0 : log (afterTitle config w) =
                  log w ++ (if MediaConfig.askTitle config
                            then [Prompted promptText] else [])).
  { unfold afterTitle. destruct (MediaConfig.askTitle config); simpl;
      now rewrite ?app_nil_r. }
  assert (Hstart :
    addMetadata_loop config imageFile (file :: rest) acc w =
    match
      (if file_ready config file && image_ready imageFile
       then Ok (inputArgs (value file) (option_map value imageFile)
                ++ metadataArgs t config ++ outputArgs out)
       else Raise AttributeError)
    with
    | Ok command =>
        (subprocess_run command ;;;
         (if negb (MediaConfig.cleanupFiles config) then ret tt
          else cleanupFiles (seenByOutputFilename config file) out
                 (MediaConfig.replaceWhitespace config)) ;;;
         addMetadata_loop config imageFile rest (acc ++ [out]))
          (afterTitle config w)
    | Raise e => (Raise e, afterTitle config w)
    end).
  { simpl addMetadata_loop. unfold bind at 1, lift at 1. rewrite Hout.
    cbv beta iota. unfold bind at 1.
    rewrite (getFfmpegCommand_outcome _ config imageFile out w t Ht).
    rewrite seen_cached, seen_value.
    now destruct (file_ready config file && image_ready imageFile). }
  destruct (file_ready config file) eqn:Hf;
    [destruct (image_ready imageFile) eqn:Hi|];
    [destruct (installed w "ffmpeg") eqn:Hff| |].
  - destruct (MediaConfig.cleanupFiles config) eqn:Hclean.
    + destruct (installed w "rm") eqn:Hrm;
        [destruct (installed w "mv") eqn:Hmv|].
      * left. apply addMetadata_loop_step; auto.
        unfold programs_ready. now rewrite Hff, Hclean, Hrm, Hmv.
      * right. exists FileNotFoundError.
        eexists. exists ((if MediaConfig.askTitle config then 1 else 0) + 2).
        rewrite Hstart. cbn [andb]. unfold bind at 1.
        rewrite subprocess_run_ffmpeg by (now rewrite Hins).
        cbv beta iota. cbn [negb]. unfold bind at 1.
        rewrite cleanupFiles_no_mv;
          [| now rewrite seen_cached
           | unfold record; simpl; now rewrite Hins
           | unfold record; simpl; now rewrite Hins].
        split; [reflexivity|].
        unfold record. simpl log. rewrite Hlog0, seen_value.
        unfold fileEvents. rewrite Hclean.
        destruct (MediaConfig.askTitle config); simpl;
          now rewrite <- ?app_assoc.
      * right. exists FileNotFoundError.
        eexists. exists ((if MediaConfig.askTitle config then 1 else 0) + 1).
        rewrite Hstart. cbn [andb]. unfold bind at 1.
        rewrite subprocess_run_ffmpeg by (now rewrite Hins).
        cbv beta iota. cbn [negb]. unfold bind at 1.
        rewrite cleanupFiles_no_rm;
          [| now rewrite seen_cached
           | unfold record; simpl; now rewrite Hins].
        split; [reflexivity|].
        unfold record. simpl log. rewrite Hlog0.
        unfold fileEvents. rewrite Hclean.
        destruct (MediaConfig.askTitle config); simpl;
          now rewrite <- ?app_assoc.
    + left. apply addMetadata_loop_step; auto.
      unfold programs_ready. now rewrite Hff, Hclean.
  - right. exists FileNotFoundError.
    eexists. exists (if MediaConfig.askTitle config then 1 else 0).
    rewrite Hstart. cbn [andb]. unfold bind at 1, subprocess_run.
    rewrite Hins. destruct imageFile; simpl; rewrite Hff;
      (split; [reflexivity|]); rewrite Hlog0; unfold fileEvents;
      destruct (MediaConfig.askTitle config); simpl; reflexivity.
  - right. exists AttributeError.
    eexists. exists (if MediaConfig.askTitle config then 1 else 0).
    rewrite Hstart. cbn [andb]. split; [reflexivity|].
    rewrite Hlog0. unfold fileEvents.
    destruct (MediaConfig.askTitle config); simpl; reflexivity.
  - right. exists AttributeError.
    eexists. exists (if MediaConfig.askTitle config then 1 else 0).
    rewrite Hstart. cbn [andb]. split; [reflexivity|].
    rewrite Hlog0. unfold fileEvents.
    destruct (MediaConfig.askTitle config); simpl; reflexivity.
Qed.

(** Whatever a run returns or raises, what it has logged is the start of
    a sequence of per-file events, file after file. *)
Lemma addMetadata_loop_prefix (config : MediaConfig.t)
    (imageFile : option PathObj) (files : list PathObj) :
  forall (acc : list string) (w w' : world) (r : outcome (list string)),
    addMetadata_loop config imageFile files acc w = (r, w') ->
    exists outs titles n,
      log w' =
      log w ++ firstn n
                 (flat_map (fileEvents config (option_map value imageFile))
                    (combine (map value files) (combine outs titles))).
Proof.
  induction files as [|file files IH]; intros acc w w' r H.
  - inversion H; subst. exists [], [], 0. simpl. now rewrite app_nil_r.
  - destruct (getOutputFilename config (value file)) as [out|e] eqn:Hout.
    + destruct (resolvedTitle config w) as [t|] eqn:Ht.
      * destruct (addMetadata_loop_step_cases config imageFile file files
                    acc w out t Hout Ht) as [E | (e & w1 & n & E & Hlog)].
        -- rewrite E in H. apply IH in H.
           destruct H as (outs & titles & n & Hlog).
           exists (out :: outs), (t :: titles),
             (List.length (fileEvents config (option_map value imageFile)
                             (value file, (out, t))) + n).
           rewrite Hlog. cbn [map combine]. rewrite flat_map_step.
           rewrite firstn_app_2.
           change (log (afterFile config (option_map value imageFile)
                          (value file) out t w))
             with (log w ++ fileEvents config (option_map value imageFile)
                              (value file, (out, t))).
           now rewrite <- app_assoc.
        -- rewrite E in H. inversion H; subst.
           exists [out], [t], n. rewrite Hlog. cbn [map combine].
           rewrite flat_map_step.
           destruct (map value files); simpl flat_map;
             now rewrite app_nil_r.
      * exists [out], [""], 1.
        simpl addMetadata_loop in H. unfold bind at 1, lift at 1 in H.
        rewrite Hout in H. cbv beta iota in H. unfold bind at 1 in H.
        rewrite (getFfmpegCommand_eof _ config imageFile out w Ht) in H.
        inversion H; subst.
        unfold resolvedTitle in Ht.
        destruct (MediaConfig.askTitle config) eqn:Hask; [|discriminate].
        cbn [map combine]. rewrite flat_map_step. unfold fileEvents.
        rewrite Hask. reflexivity.
    + exists [], [], 0.
      simpl addMetadata_loop in H. unfold bind at 1, lift at 1 in H.
      rewrite Hout in H. inversion H; subst.
      simpl. now rewrite app_nil_r.
Qed.

(** The log of the whole loop: the events of each file in turn, each file
    with its own output name and its own title. *)
Lemma addMetadata_loop_trace (config : MediaConfig.t)
    (imageFile : option PathObj) (files : list PathObj)
    (outs : list string) :
  image_ready imageFile = true ->
  Forall2 (fun f o => getOutputFilename config (value f) = Ok o
                      /\ file_ready config f = true) files outs ->
  forall (acc : list string) (w : world),
    programs_ready config w = true ->
    (MediaConfig.askTitle config = true ->
     List.length files <= List.length (stdin w)) ->
    exists w',
      addMetadata_loop config imageFile files acc w = (Ok (acc ++ outs), w')
      /\ log w' =
         log w ++ flat_map (fileEvents config (option_map value imageFile))
                    (combine (map value files)
                       (combine outs
                          (titlesFor config w (List.length files)))).
Proof.
  intros Hi.
  induction 1 as [|file out files outs [Hout Hf] HF IH]; intros acc w Hp Hlen.
  - exists w. simpl. now rewrite !app_nil_r.
  - destruct (titlesFor_step config w (List.length files) Hlen)
      as (t & Ht & Htitles & Hlen').
    simpl List.length. rewrite Htitles.
    rewrite (addMetadata_loop_step config imageFile file files acc w out t
               Hout Ht Hf Hi Hp).
    destruct (IH (acc ++ [out])
                (afterFile config (option_map value imageFile) (value file)
                   out t w)) as (w' & Hrun & Hlog).
    { now rewrite afterFile_host. }
    { exact Hlen'. }
    exists w'. split.
    + rewrite Hrun. now rewrite <- app_assoc.
    + rewrite Hlog.
      rewrite (titlesFor_stdin config
                 (afterFile config (option_map value imageFile) (value file)
                    out t w)
                 (afterTitle config w)) by reflexivity.
      change (log (afterFile config (option_map value imageFile)
                     (value file) out t w))
        with (log w ++ fileEvents config (option_map value imageFile)
                         (value file, (out, t))).
      cbn [map combine]. rewrite flat_map_step. now rewrite <- app_assoc.
Qed.

(** C8. The removal and the renaming are logged only under the cleanup
    flag, once per file and right after the ffmpeg run of that file, ahead
    of anything of the next file: first [rm] of the original, then [mv] of
    the produced output onto the name of the original, which is trimmed
    exactly when the normalize flag is set.  Whatever a run returns or
    raises, its log is the start of such a sequence of per-file events;
    and it is the whole sequence when the output names can be derived,
    the titles can be read, the [_str] slots that are read are filled and
    the programs can be started. *)
Theorem cleanup_follows_each_transcode (config : MediaConfig.t)
    (imageFile : option PathObj) (files : list PathObj) (w : world) :
  (forall r w',
     addMetadata config files imageFile w = (r, w') ->
     exists outs titles n,
       log w' =
       log w
       ++ firstn n
            (flat_map
               (fun '(file, (out, t)) =>
                  (if MediaConfig.askTitle config
                   then [Prompted promptText] else [])
                  ++ [Ran (inputArgs file (option_map value imageFile)
                           ++ metadataArgs t config ++ outputArgs out)]
                  ++ (if MediaConfig.cleanupFiles config
                      then [Ran ["rm"; str file];
                            Ran ["mv"; out;
                                 if MediaConfig.replaceWhitespace config
                                 then trimStr (str file) else str file]]
                      else []))
               (combine (map value files) (combine outs titles))))
  /\ (forall outs,
        Forall2 (fun f o => getOutputFilename config (value f) = Ok o
                            /\ file_ready config f = true) files outs ->
        image_ready imageFile = true ->
        programs_ready config w = true ->
        (MediaConfig.askTitle config = true ->
         List.length files <= List.length (stdin w)) ->
        exists w',
          addMetadata config files imageFile w = (Ok tt, w')
          /\ log w' =
             log w
             ++ flat_map (fileEvents config (option_map value imageFile))
                  (combine (map value files)
                     (combine outs
                        (titlesFor config w (List.length files))))).
Proof.
  split.
  - intros r w' H. unfold addMetadata, bind in H.
    destruct (addMetadata_loop config imageFile files [] w)
      as [r0 w0] eqn:Hrun.
    assert (w0 = w') as -> by (destruct r0; now inversion H).
    exact (addMetadata_loop_prefix config imageFile files [] w w' r0 Hrun).
  - intros outs Houts Hi Hp Hlen.
    destruct (addMetadata_loop_trace config imageFile files outs Hi Houts
                [] w Hp Hlen) as (w' & Hrun & Hlog).
    exists w'. split.
    + unfold addMetadata, bind. now rewrite Hrun.
    + exact Hlog.
Qed.

Lemma cleanup_follows_each_transcode_witness :
  exists w',
    addMetadata
      (MediaConfig.mk "my songs" "" "" "" "" "" "Demo" "*.mp3"
         false true true)
      [fresh (mkPath "" ["my songs"; "a b.mp3"]);
       fresh (mkPath "" ["my songs"; "c.mp3"])]
      None Demo.w0_unfilled = (Ok tt, w')
    /\ log w' =
       [ Ran ["ffmpeg"; "-i"; "my songs/a b.mp3"; "-metadata"; "title=Demo";
              "-id3v2_version"; "3"; "-c"; "copy"; "my_songs/copy_a_b.mp3"];
         Ran ["rm"; "my songs/a b.mp3"];
         Ran ["mv"; "my_songs/copy_a_b.mp3"; "my_songs/a_b.mp3"];
         Ran ["ffmpeg"; "-i"; "my songs/c.mp3"; "-metadata"; "title=Demo";
              "-id3v2_version"; "3"; "-c"; "copy"; "my_songs/copy_c.mp3"];
         Ran ["rm"; "my songs/c.mp3"];
         Ran ["mv"; "my_songs/copy_c.mp3"; "my_songs/c.mp3"] ].
Proof.
  apply (proj2 (cleanup_follows_each_transcode
                  (MediaConfig.mk "my songs" "" "" "" "" "" "Demo" "*.mp3"
                     false true true)
                  None
                  [fresh (mkPath "" ["my songs"; "a b.mp3"]);
                   fresh (mkPath "" ["my songs"; "c.mp3"])]
                  Demo.w0_unfilled)
           ["my_songs/copy_a_b.mp3"; "my_songs/copy_c.mp3"]).
  - repeat constructor.
  - reflexivity.
  - reflexivity.
  - discriminate.
Defined.

(** C9, as stated, fails: a literal file name with an image pattern that
    matches nothing makes discovery raise. *)
Lemma literal_name_can_abort :
  ~ (forall (dir filename img : string) (w : world),
       PyStr.contains "*" filename = false ->
       exists r w', getFilePaths dir filename img w = (Ok r, w')).
Proof.
  intros H.
  destruct (H "songs" "a.mp3" "*.png" Demo.w0 eq_refl) as (r & w' & E).
  discriminate E.
Qed.

(** C9, amended. For a specifier without a wildcard the assertion on the
    list of files never fails: discovery raises only when an image pattern
    was given and its glob matches nothing or is rejected.  With no image
    pattern discovery returns the single joined path without a look at the
    directory, so a literal name of a file that does not exist passes
    discovery and is handed to the loop over the files. *)
Theorem literal_name_aborts_only_on_image (config : MediaConfig.t)
    (w : world) :
  PyStr.contains "*" (MediaConfig.filename config) = false ->
  (forall e w',
     getFilePaths (MediaConfig.dir config) (MediaConfig.filename config)
       (MediaConfig.img config) w = (Raise e, w') ->
     e <> AssertionError
     /\ MediaConfig.img config <> ""
     /\ (fs w (parse (MediaConfig.dir config)) (MediaConfig.img config)
           = Some []
         \/ fs w (parse (MediaConfig.dir config)) (MediaConfig.img config)
           = None))
  /\ (MediaConfig.img config = "" ->
      getFilePaths (MediaConfig.dir config) (MediaConfig.filename config)
        (MediaConfig.img config) w =
      (Ok ([joinpath (parse (MediaConfig.dir config))
              (MediaConfig.filename config)], None), w)
      /\ main config w =
         addMetadata config
           [fresh (joinpath (parse (MediaConfig.dir config))
                     (MediaConfig.filename config))] None w).
Proof.
  intros Hs. split.
  - intros e w'.
    rewrite (getFilePaths_literal _ _ _ w Hs). unfold bind.
    destruct (findImage _ _ w) as [[im|e0] w1] eqn:Hf; [discriminate|].
    intros H. inversion H; subst e0 w1.
    destruct (findImage_raises _ _ _ _ _ Hf) as (Hi & _ & [[Hm ->]|[Hm ->]]);
      (split; [discriminate|]); split; auto.
  - intros Hi. unfold main, bind.
    rewrite (getFilePaths_literal _ _ _ w Hs). unfold bind.
    rewrite Hi, findImage_none. unfold ret, discovered. rewrite Hs.
    split; reflexivity.
Qed.

Lemma literal_name_aborts_only_on_image_witness :
  getFilePaths "songs" "missing.mp3" "" Demo.w0 =
  (Ok ([mkPath "" ["songs"; "missing.mp3"]], None), Demo.w0).
Proof.
  apply (literal_name_aborts_only_on_image
           (MediaConfig.mk "songs" "" "" "" "" "" "Demo" "missing.mp3"
              false false false) Demo.w0 eq_refl).
  reflexivity.
Defined.

(** ** Strings *)

Lemma append_nil_r (s : string) : (s ++ "")%string = s.
Proof. induction s; simpl; congruence. Qed.

Lemma append_assoc (s t u : string) :
  ((s ++ t) ++ u)%string = (s ++ (t ++ u))%string.
Proof. induction s; simpl; congruence. Qed.

Lemma length_append (s t : string) :
  String.length (s ++ t) = String.length s + String.length t.
Proof. induction s; simpl; congruence. Qed.

Lemma contains_append (c : ascii) (s t : string) :
  PyStr.contains c (s ++ t) = PyStr.contains c s || PyStr.contains c t.
Proof.
  induction s as [|a s IH]; simpl; [reflexivity|].
  now rewrite IH, orb_assoc.
Qed.

Lemma rindex_none (c : ascii) (s : string) :
  PyStr.contains c s = false -> PyStr.rindex c s = None.
Proof.
  induction s as [|a s IH]; simpl; [reflexivity|].
  intros H. apply orb_false_elim in H. destruct H as [Ha Hs].
  now rewrite (IH Hs), Ha.
Qed.

(** The last occurrence of [c] is the one followed by no other. *)
Lemma rindex_last (c : ascii) (s t : string) :
  PyStr.contains c t = false ->
  PyStr.rindex c (s ++ String c t) = Some (String.length s).
Proof.
  intros Ht. induction s as [|a s IH]; simpl.
  - now rewrite (rindex_none c t Ht), Ascii.eqb_refl.
  - now rewrite IH.
Qed.

Lemma slice_to_length (s t : string) :
  PyStr.slice_to (String.length s) (s ++ t) = s.
Proof.
  unfold PyStr.slice_to. induction s as [|a s IH]; simpl.
  - now destruct t.
  - now rewrite IH.
Qed.

Lemma split_nonempty (c : ascii) (s : string) : PyStr.split c s <> [].
Proof.
  destruct s as [|a s]; simpl; [discriminate|].
  destruct (Ascii.eqb a c); [discriminate|].
  destruct (PyStr.split c s); discriminate.
Qed.

Lemma split_none (c : ascii) (s : string) :
  PyStr.contains c s = false -> PyStr.split c s = [s].
Proof.
  induction s as [|a s IH]; simpl; [reflexivity|].
  intros H. apply orb_false_elim in H. destruct H as [Ha Hs].
  now rewrite Ha, (IH Hs).
Qed.

Lemma split_append (c : ascii) (s t : string) :
  PyStr.contains c s = false ->
  PyStr.split c (s ++ String c t) = s :: PyStr.split c t.
Proof.
  induction s as [|a s IH]; simpl.
  - intros _. now rewrite Ascii.eqb_refl.
  - intros H. apply orb_false_elim in H. destruct H as [Ha Hs].
    now rewrite Ha, (IH Hs).
Qed.

(** No piece of a split holds the separator. *)
Lemma split_pieces (c : ascii) (s : string) :
  forallb (fun x => negb (PyStr.contains c x)) (PyStr.split c s) = true.
Proof.
  induction s as [|a s IH]; simpl; [reflexivity|].
  destruct (Ascii.eqb a c) eqn:Ha; simpl; [exact IH|].
  destruct (PyStr.split c s) as [|h t]; simpl in *.
  - now rewrite Ha.
  - now rewrite Ha.
Qed.

(** ** Trimming *)

(** The two [replace] calls of [trimStr] amount to one pass over the
    characters. *)
Lemma trimStr_normalized (s : string) : trimStr s = normalized s.
Proof.
  unfold trimStr. induction s as [|a s IH]; simpl; [reflexivity|].
  destruct (Ascii.eqb a " ") eqn:Hsp; simpl.
  - now rewrite IH.
  - destruct (Ascii.eqb a "'"); simpl; now rewrite IH.
Qed.

Lemma normalized_clean (s : string) : clean s = true -> normalized s = s.
Proof.
  induction s as [|a s IH]; simpl; [reflexivity|].
  destruct (Ascii.eqb a " "); simpl; [discriminate|].
  destruct (Ascii.eqb a "'"); simpl; [discriminate|].
  intros H. now rewrite (IH H).
Qed.

Lemma clean_normalized (s : string) : clean (normalized s) = true.
Proof.
  induction s as [|a s IH]; simpl; [reflexivity|].
  destruct (Ascii.eqb a " ") eqn:Hsp; simpl; [exact IH|].
  destruct (Ascii.eqb a "'") eqn:Hap; simpl; [exact IH|].
  now rewrite Hsp, Hap.
Qed.

Lemma trimStr_idempotent (s : string) : trimStr (trimStr s) = trimStr s.
Proof.
  rewrite !trimStr_normalized. apply normalized_clean, clean_normalized.
Qed.

Lemma clean_append (s t : string) :
  clean (s ++ t) = clean s && clean t.
Proof.
  induction s as [|a s IH]; simpl; [reflexivity|].
  now rewrite IH, !andb_assoc.
Qed.

(** ** Paths *)

Lemma wf_root (p : Path) :
  wf p = true -> root p = "" \/ root p = "/" \/ root p = "//".
Proof.
  unfold wf. intros H. apply andb_prop in H. destruct H as [H _].
  apply orb_prop in H. destruct H as [H|H].
  - apply orb_prop in H. destruct H as [H|H]; apply String.eqb_eq in H; auto.
  - apply String.eqb_eq in H; auto.
Qed.

Lemma wf_tail (p : Path) :
  wf p = true -> forallb component_ok (tail p) = true.
Proof. unfold wf. intros H. now apply andb_prop in H. Qed.

Lemma wf_intro (r : string) (t : list string) :
  r = "" \/ r = "/" \/ r = "//" ->
  forallb component_ok t = true ->
  wf (mkPath r t) = true.
Proof.
  unfold wf. simpl. intros [->|[->| ->]] ->; reflexivity.
Qed.

Lemma component_ok_spec (x : string) :
  component_ok x = true ->
  x <> "" /\ x <> "." /\ PyStr.contains sep x = false.
Proof.
  unfold component_ok, keep. intros H.
  apply andb_prop in H. destruct H as [H Hs].
  apply andb_prop in H. destruct H as [Ht Hd].
  repeat split.
  - intros ->. discriminate.
  - intros ->. discriminate.
  - now apply negb_true_iff in Hs.
Qed.

Lemma component_ok_keep (x : string) : component_ok x = true -> keep x = true.
Proof. unfold component_ok. intros H. now apply andb_prop in H. Qed.

Lemma str_tail (p : Path) :
  tail p <> [] -> str p = (root p ++ String.concat "/" (tail p))%string.
Proof.
  unfold str. destruct (root p), (tail p); simpl; congruence.
Qed.

Lemma concat_snoc (x : string) (init : list string) (l : string) :
  String.concat "/" (x :: init ++ [l]) =
  (String.concat "/" (x :: init) ++ "/" ++ l)%string.
Proof.
  revert x. induction init as [|y init IH]; intros x.
  - reflexivity.
  - change (String.concat "/" (x :: (y :: init) ++ [l]))
      with (x ++ "/" ++ String.concat "/" (y :: init ++ [l]))%string.
    rewrite IH.
    change (String.concat "/" (x :: y :: init))
      with (x ++ "/" ++ String.concat "/" (y :: init))%string.
    now rewrite !append_assoc.
Qed.

Lemma last_component (t : list string) :
  forallb component_ok t = true ->
  PyStr.contains sep (last t "") = false.
Proof.
  induction t as [|x t IH]; simpl; [reflexivity|].
  intros H. apply andb_prop in H. destruct H as [Hx Ht].
  destruct t as [|y t]; [|now apply IH].
  now destruct (component_ok_spec x Hx) as (_ & _ & ?).
Qed.

(** The text of a path with a slash ends in a slash and the name; the
    text of a prefixed sibling differs by the prefix after that slash. *)
Lemma str_prefixed (p : Path) :
  wf p = true ->
  PyStr.contains sep (str p) = true ->
  exists pre,
    str p = (pre ++ "/" ++ name p)%string
    /\ forall m, str (prefixed m p) = (pre ++ "/" ++ m ++ name p)%string.
Proof.
  intros Hwf Hsl. pose proof (wf_root p Hwf) as Hr.
  destruct p as [r t]. simpl in Hr. unfold prefixed, name. simpl root.
  simpl tail.
  destruct t as [|x t].
  - destruct Hr as [->|[->| ->]].
    + discriminate Hsl.
    + exists "". split; [reflexivity|]. intros m. now rewrite str_tail.
    + exists "/". split; [reflexivity|]. intros m. now rewrite str_tail.
  - destruct (@exists_last _ (x :: t)) as (init & l & E); [discriminate|].
    rewrite E in *. rewrite removelast_last, last_last in *.
    pose proof (last_component _ (wf_tail _ Hwf)) as Hlast.
    simpl tail in Hlast. rewrite last_last in Hlast.
    rewrite str_tail in * by (simpl; now destruct init).
    simpl root in *. simpl tail in *.
    destruct init as [|y init].
    + simpl String.concat in *.
      destruct Hr as [->|[->| ->]].
      * simpl in Hsl. congruence.
      * exists "". split; [reflexivity|]. intros m. now rewrite str_tail.
      * exists "/". split; [reflexivity|]. intros m. now rewrite str_tail.
    + exists (r ++ String.concat "/" (y :: init))%string. split.
      * cbn [app]. now rewrite concat_snoc, !append_assoc.
      * intros m. rewrite str_tail by discriminate. simpl root. simpl tail.
        cbn [app]. now rewrite concat_snoc, !append_assoc.
Qed.

Lemma str_split (p : Path) :
  wf p = true ->
  PyStr.contains sep (str p) = true ->
  exists pre,
    str p = (pre ++ "/" ++ name p)%string
    /\ str (marked p) = (pre ++ "/copy_" ++ name p)%string.
Proof.
  intros Hwf Hsl. destruct (str_prefixed p Hwf Hsl) as (pre & Hp & Hm).
  exists pre. split; [exact Hp|]. apply (Hm "copy_").
Qed.

(** ** Output file names *)

(** The name derived in normalize mode, in closed form. *)
Lemma getOutputFilename_normalize (config : MediaConfig.t) (file : Path) :
  MediaConfig.replaceWhitespace config = true ->
  wf file = true ->
  getOutputFilename config file =
  if PyStr.contains sep (str file)
  then Ok (normalized (str (marked file)))
  else Raise ValueError.
Proof.
  intros Hn Hwf. unfold getOutputFilename, as_posix. rewrite Hn.
  destruct (PyStr.contains sep (str file)) eqn:Hsl.
  - destruct (str_split file Hwf Hsl) as (pre & Hs & Hm).
    rewrite Hs, Hm.
    change (pre ++ "/" ++ name file)%string
      with (pre ++ String "/" (name file))%string.
    rewrite rindex_last by (apply last_component, wf_tail, Hwf).
    now rewrite slice_to_length, trimStr_normalized.
  - unfold sep in Hsl. now rewrite (rindex_none _ _ Hsl).
Qed.

Lemma getOutputFilename_plain (config : MediaConfig.t) (file : Path) :
  MediaConfig.replaceWhitespace config = false ->
  getOutputFilename config file = Ok ("copy_" ++ name file)%string.
Proof. intros Hn. unfold getOutputFilename. now rewrite Hn. Qed.

(** C2, as stated, fails: a space is not removed but turned into an
    underscore. *)
Lemma normalize_keeps_a_mark_for_spaces :
  ~ (forall (config : MediaConfig.t) (file : Path),
       MediaConfig.replaceWhitespace config = true ->
       wf file = true ->
       PyStr.contains sep (str file) = true ->
       getOutputFilename config file = Ok (stripped (str (marked file)))).
Proof.
  intros H.
  specialize (H (MediaConfig.mk "my songs" "" "" "" "" "" "Demo" "*.mp3"
                   false true false)
                (mkPath "" ["my songs"; "it's a b.mp3"])
                eq_refl eq_refl eq_refl).
  discriminate H.
Qed.

(** C2, amended. In normalize mode the derived name of a file whose path
    text has a slash is the path of [copy_<name>] inside the directory of
    the source, with every space turned into an underscore and every
    apostrophe removed, and nothing else changed. *)
Theorem normalize_output_filename (config : MediaConfig.t) (file : Path) :
  MediaConfig.replaceWhitespace config = true ->
  wf file = true ->
  PyStr.contains sep (str file) = true ->
  getOutputFilename config file = Ok (normalized (str (marked file)))
  /\ exists pre,
       str file = (pre ++ "/" ++ name file)%string
       /\ str (marked file) = (pre ++ "/copy_" ++ name file)%string.
Proof.
  intros Hn Hwf Hsl.
  rewrite (getOutputFilename_normalize config file Hn Hwf), Hsl.
  split; [reflexivity|]. now apply str_split.
Qed.

Lemma normalize_output_filename_witness :
  getOutputFilename
    (MediaConfig.mk "my songs" "" "" "" "" "" "Demo" "*.mp3"
       false true false)
    (mkPath "" ["my songs"; "it's a b.mp3"])
  = Ok "my_songs/copy_its_a_b.mp3".
Proof.
  apply (normalize_output_filename
           (MediaConfig.mk "my songs" "" "" "" "" "" "Demo" "*.mp3"
              false true false)
           (mkPath "" ["my songs"; "it's a b.mp3"])
           eq_refl eq_refl eq_refl).
Defined.

(** ** Parsing the text of a path *)

Lemma splitroot_root (r x : string) :
  r = "" \/ r = "/" \/ r = "//" ->
  PyStr.starts_with sep x = false ->
  splitroot (r ++ x) = (r, x).
Proof.
  unfold splitroot. intros [->|[->| ->]] Hx; simpl; now rewrite Hx.
Qed.

Lemma splitroot_cases (s : string) :
  fst (splitroot s) = "" \/ fst (splitroot s) = "/"
  \/ fst (splitroot s) = "//".
Proof.
  unfold splitroot.
  destruct (negb (PyStr.starts_with sep s)); auto.
  destruct (negb (PyStr.starts_with sep (PyStr.drop1 s))
            || PyStr.starts_with sep (PyStr.drop1 (PyStr.drop1 s))); auto.
Qed.

Lemma filter_keep_pieces (l : list string) :
  forallb (fun x => negb (PyStr.contains sep x)) l = true ->
  forallb component_ok (filter keep l) = true.
Proof.
  induction l as [|x l IH]; simpl; [reflexivity|].
  intros H. apply andb_prop in H. destruct H as [Hx Hl].
  destruct (keep x) eqn:Hk; simpl; [|now apply IH].
  rewrite (IH Hl). unfold component_ok. now rewrite Hk, Hx.
Qed.

(** Every parsed path is well formed. *)
Lemma parse_wf (s : string) : wf (parse s) = true.
Proof.
  unfold parse. pose proof (splitroot_cases s) as Hr.
  destruct (splitroot s) as [r rel]. simpl in Hr.
  apply wf_intro; [exact Hr|].
  apply filter_keep_pieces, split_pieces.
Qed.

Lemma forallb_app_true {A} (f : A -> bool) (l1 l2 : list A) :
  forallb f l1 = true -> forallb f l2 = true -> forallb f (l1 ++ l2) = true.
Proof. intros H1 H2. now rewrite forallb_app, H1, H2. Qed.

(** So is every joined path. *)
Lemma joinpath_wf (p : Path) (s : string) :
  wf p = true -> wf (joinpath p s) = true.
Proof.
  intros Hp. unfold joinpath. pose proof (parse_wf s) as Hq.
  destruct (PyStr.truthy (root (parse s))); [exact Hq|].
  apply wf_intro; [exact (wf_root p Hp)|].
  apply forallb_app_true; now apply wf_tail.
Qed.

Lemma forallb_removelast {A} (f : A -> bool) (l : list A) :
  forallb f l = true -> forallb f (removelast l) = true.
Proof.
  induction l as [|x l IH]; simpl; [reflexivity|].
  intros H. apply andb_prop in H. destruct H as [Hx Hl].
  destruct l; [reflexivity|]. simpl in *. now rewrite Hx, IH.
Qed.

(** And so is the marked path. *)
Lemma marked_wf (p : Path) : wf p = true -> wf (marked p) = true.
Proof.
  intros Hp. unfold marked. apply wf_intro; [exact (wf_root p Hp)|].
  apply forallb_app_true.
  - apply forallb_removelast, wf_tail, Hp.
  - simpl. rewrite andb_true_r. unfold component_ok, keep. simpl.
    pose proof (last_component _ (wf_tail p Hp)) as Hl.
    unfold name. now rewrite Hl.
Qed.

Lemma split_concat (x : string) (t : list string) :
  forallb component_ok (x :: t) = true ->
  PyStr.split sep (String.concat "/" (x :: t)) = x :: t.
Proof.
  revert x. induction t as [|y t IH]; intros x H; simpl in H;
    apply andb_prop in H; destruct H as [Hx Ht].
  - apply split_none. now destruct (component_ok_spec x Hx) as (_ & _ & ?).
  - change (String.concat "/" (x :: y :: t))
      with (x ++ String sep (String.concat "/" (y :: t)))%string.
    rewrite split_append
      by now destruct (component_ok_spec x Hx) as (_ & _ & ?).
    now rewrite IH.
Qed.

Lemma filter_keep_wf (t : list string) :
  forallb component_ok t = true -> filter keep t = t.
Proof.
  induction t as [|x t IH]; simpl; [reflexivity|].
  intros H. apply andb_prop in H. destruct H as [Hx Ht].
  now rewrite (component_ok_keep x Hx), (IH Ht).
Qed.

Lemma concat_starts (x : string) (t : list string) :
  component_ok x = true ->
  PyStr.starts_with sep (String.concat "/" (x :: t)) = false.
Proof.
  intros Hx. destruct (component_ok_spec x Hx) as (Hne & _ & Hs).
  destruct x as [|a x]; [congruence|].
  simpl in Hs. apply orb_false_elim in Hs. destruct Hs as [Ha _].
  destruct t; simpl; exact Ha.
Qed.

(** Parsing the text of a well-formed path gives the path back. *)
Lemma parse_str (p : Path) : wf p = true -> parse (str p) = p.
Proof.
  intros Hwf. pose proof (wf_root p Hwf) as Hr.
  pose proof (wf_tail p Hwf) as Ht.
  destruct p as [r t]. simpl in Hr, Ht.
  destruct t as [|x t].
  - destruct Hr as [->|[->| ->]]; reflexivity.
  - rewrite str_tail by discriminate. simpl root. simpl tail.
    unfold parse. rewrite splitroot_root; [|exact Hr|].
    + now rewrite split_concat, filter_keep_wf.
    + apply concat_starts. simpl in Ht. now apply andb_prop in Ht.
Qed.

(** ** Joining a directory and a file name *)

Lemma parse_component (x : string) :
  component_ok x = true -> parse x = mkPath "" [x].
Proof.
  intros Hx. destruct (component_ok_spec x Hx) as (_ & _ & Hs).
  unfold parse. change x with ("" ++ x)%string at 1.
  rewrite (splitroot_root "" x) by (auto; apply (concat_starts x [] Hx)).
  rewrite (split_none _ _ Hs). simpl.
  now rewrite (component_ok_keep x Hx).
Qed.

(** Under a directory with at least one component, a plain file name is
    appended after a slash. *)
Lemma joinpath_text (p : Path) (x : string) :
  component_ok x = true ->
  tail p <> [] ->
  joinpath p x = mkPath (root p) (tail p ++ [x])
  /\ str (joinpath p x) = (str p ++ "/" ++ x)%string.
Proof.
  intros Hx Ht.
  assert (E : joinpath p x = mkPath (root p) (tail p ++ [x])).
  { unfold joinpath. now rewrite (parse_component x Hx). }
  split; [exact E|]. rewrite E.
  rewrite (str_tail p Ht).
  rewrite str_tail by (simpl; now destruct (tail p)).
  simpl root. simpl tail.
  destruct (tail p) as [|y init]; [congruence|].
  cbn [app]. now rewrite concat_snoc, append_assoc.
Qed.

(** C5. For a specifier without a wildcard, the files of discovery are
    the single path [Path(dir) / filename]: returned at once with no
    image, after the image lookup with one, and whatever discovery
    returns has exactly that path as its files.  For a plain file name
    under a directory with a component, the text of that path is the text
    of the directory, a slash and the file name. *)
Theorem single_literal_path (dir filename img : string) (w : world) :
  PyStr.contains "*" filename = false ->
  (img = "" ->
   getFilePaths dir filename img w =
   (Ok ([joinpath (parse dir) filename], None), w))
  /\ (img <> "" ->
      forall m ms, fs w (parse dir) img = Some (m :: ms) ->
      getFilePaths dir filename img w =
      (Ok ([joinpath (parse dir) filename], Some m),
       record (Globbed (parse dir) img) w))
  /\ (forall files imageFile w',
      getFilePaths dir filename img w = (Ok (files, imageFile), w') ->
      files = [joinpath (parse dir) filename])
  /\ (component_ok filename = true -> tail (parse dir) <> [] ->
      str (joinpath (parse dir) filename) =
      (str (parse dir) ++ "/" ++ filename)%string).
Proof.
  intros Hs. rewrite (getFilePaths_literal dir filename img w Hs).
  repeat split.
  - now intros ->.
  - intros Hi m ms Hm. unfold bind.
    now rewrite (findImage_first (parse dir) img w m ms Hi Hm).
  - intros files imageFile w'. unfold bind, ret.
    destruct (findImage _ _ _) as [[im|e] w1]; intros H; now inversion H.
  - intros Hx Ht. now apply joinpath_text.
Qed.

Lemma single_literal_path_witness :
  getFilePaths "songs/" "a.mp3" "" Demo.w0 =
  (Ok ([mkPath "" ["songs"; "a.mp3"]], None), Demo.w0)
  /\ str (joinpath (parse "songs/") "a.mp3") = "songs/a.mp3".
Proof.
  split.
  - apply (single_literal_path "songs/" "a.mp3" "" Demo.w0 eq_refl).
    reflexivity.
  - apply (single_literal_path "songs/" "a.mp3" "" Demo.w0 eq_refl);
      [reflexivity | discriminate].
Defined.

(** ** Names free of spaces and apostrophes *)

Lemma clean_concat (l : list string) :
  forallb clean l = true -> clean (String.concat "/" l) = true.
Proof.
  induction l as [|x l IH]; simpl; [reflexivity|].
  intros H. apply andb_prop in H. destruct H as [Hx Hl].
  destruct l as [|y l]; [exact Hx|].
  rewrite !clean_append, Hx. simpl. now apply IH.
Qed.

Lemma clean_split (c : ascii) (s : string) :
  clean s = true -> forallb clean (PyStr.split c s) = true.
Proof.
  induction s as [|a s IH]; simpl; [reflexivity|].
  intros H. apply andb_prop in H. destruct H as [Ha Hs].
  specialize (IH Hs).
  destruct (Ascii.eqb a c); simpl; [exact IH|].
  destruct (PyStr.split c s) as [|h t]; simpl in *.
  - now rewrite Ha.
  - now rewrite Ha.
Qed.

Lemma forallb_filter {A} (f g : A -> bool) (l : list A) :
  forallb f l = true -> forallb f (filter g l) = true.
Proof.
  induction l as [|x l IH]; simpl; [reflexivity|].
  intros H. apply andb_prop in H. destruct H as [Hx Hl].
  destruct (g x); simpl; [now rewrite Hx, IH | now apply IH].
Qed.

Lemma clean_drop1 (s : string) : clean s = true -> clean (PyStr.drop1 s) = true.
Proof.
  destruct s; simpl; [reflexivity|].
  intros H. now apply andb_prop in H.
Qed.

Lemma clean_path_parse (s : string) :
  clean s = true -> clean_path (parse s) = true.
Proof.
  intros Hs. unfold parse, clean_path.
  pose proof (splitroot_cases s) as Hr.
  assert (Hrel : clean (snd (splitroot s)) = true).
  { unfold splitroot.
    destruct (negb (PyStr.starts_with sep s)); [exact Hs|].
    destruct (negb (PyStr.starts_with sep (PyStr.drop1 s))
              || PyStr.starts_with sep (PyStr.drop1 (PyStr.drop1 s)));
      simpl; auto using clean_drop1. }
  destruct (splitroot s) as [r rel]. simpl in *.
  apply andb_true_intro. split.
  - destruct Hr as [->|[->| ->]]; reflexivity.
  - now apply forallb_filter, clean_split.
Qed.

Lemma clean_last (t : list string) :
  forallb clean t = true -> clean (last t "") = true.
Proof.
  induction t as [|x t IH]; simpl; [reflexivity|].
  intros H. apply andb_prop in H. destruct H as [Hx Ht].
  destruct t; [exact Hx | now apply IH].
Qed.

Lemma clean_path_prefixed (m : string) (p : Path) :
  clean m = true -> clean_path p = true -> clean_path (prefixed m p) = true.
Proof.
  unfold clean_path, prefixed. simpl. intros Hm H.
  apply andb_prop in H. destruct H as [Hr Ht]. rewrite Hr. simpl.
  apply forallb_app_true.
  - now apply forallb_removelast.
  - simpl. unfold name. now rewrite clean_append, Hm, clean_last.
Qed.

Lemma clean_path_str (p : Path) :
  clean_path p = true -> clean (str p) = true.
Proof.
  unfold clean_path. intros H. apply andb_prop in H. destruct H as [Hr Ht].
  destruct (tail p) as [|x t] eqn:E.
  - unfold str. rewrite E. destruct (root p); [reflexivity|].
    now rewrite append_nil_r.
  - rewrite str_tail by congruence. rewrite clean_append, Hr, E.
    now apply clean_concat.
Qed.

(** ** Deriving twice *)

Lemma marked_marked (p : Path) : marked (marked p) = prefixed "copy_copy_" p.
Proof.
  unfold marked, prefixed, name. simpl.
  now rewrite removelast_last, last_last.
Qed.

Lemma marked_has_slash (p : Path) :
  wf p = true ->
  PyStr.contains sep (str p) = true ->
  PyStr.contains sep (str (marked p)) = true.
Proof.
  intros Hwf Hsl. destruct (str_split p Hwf Hsl) as (pre & _ & Hm).
  rewrite Hm, contains_append. simpl. now rewrite orb_true_r.
Qed.

(** What deriving once and twice gives on a clean name with a directory
    part: the marker once, then twice. *)
Lemma derive_clean (config : MediaConfig.t) (s : string) :
  MediaConfig.replaceWhitespace config = true ->
  clean s = true ->
  PyStr.contains sep (str (parse s)) = true ->
  derive config s = Ok (str (marked (parse s)))
  /\ derive_twice config s = Ok (str (marked (marked (parse s)))).
Proof.
  intros Hn Hc Hsl.
  pose proof (parse_wf s) as Hwf.
  pose proof (clean_path_parse s Hc) as Hcp.
  assert (H1 : derive config s = Ok (str (marked (parse s)))).
  { unfold derive.
    rewrite (getOutputFilename_normalize config _ Hn Hwf), Hsl.
    rewrite normalized_clean; [reflexivity|].
    now apply clean_path_str, clean_path_prefixed. }
  split; [exact H1|].
  unfold derive_twice. rewrite H1. unfold derive.
  rewrite parse_str by now apply marked_wf.
  rewrite (getOutputFilename_normalize config _ Hn (marked_wf _ Hwf)).
  rewrite (marked_has_slash _ Hwf Hsl).
  rewrite normalized_clean; [reflexivity|].
  apply clean_path_str. unfold marked.
  now repeat apply clean_path_prefixed.
Qed.

(** C3, as stated, fails: deriving the derived name puts a second marker
    in front of the file name. *)
Lemma derive_is_not_idempotent :
  ~ (forall (config : MediaConfig.t) (s : string),
       MediaConfig.replaceWhitespace config = true ->
       clean s = true ->
       derive_twice config s = derive config s).
Proof.
  intros H.
  specialize (H Demo.config_normalize "songs/a.mp3" eq_refl eq_refl).
  discriminate H.
Qed.

Example derive_twice_songs :
  derive Demo.config_normalize "songs/a.mp3" = Ok "songs/copy_a.mp3"
  /\ derive_twice Demo.config_normalize "songs/a.mp3" =
     Ok "songs/copy_copy_a.mp3".
Proof. split; reflexivity. Qed.

(** C3, amended. Trimming is idempotent, and in normalize mode it changes
    nothing on a name free of spaces and apostrophes: with a directory
    part [pre/name], deriving gives [pre/copy_name], and deriving again
    gives [pre/copy_copy_name], which is another name. *)
Theorem derive_marks_clean_names (config : MediaConfig.t) (s : string) :
  MediaConfig.replaceWhitespace config = true ->
  clean s = true ->
  PyStr.contains sep (str (parse s)) = true ->
  (forall x, trimStr (trimStr x) = trimStr x)
  /\ exists pre,
       str (parse s) = (pre ++ "/" ++ name (parse s))%string
       /\ derive config s = Ok (pre ++ "/copy_" ++ name (parse s))%string
       /\ derive_twice config s =
          Ok (pre ++ "/copy_copy_" ++ name (parse s))%string
       /\ derive_twice config s <> derive config s.
Proof.
  intros Hn Hc Hsl. pose proof (parse_wf s) as Hwf.
  split; [intros x; apply trimStr_idempotent|].
  destruct (derive_clean config s Hn Hc Hsl) as [H1 H2].
  destruct (str_prefixed _ Hwf Hsl) as (pre & Hp & Hm).
  exists pre. rewrite H1, H2, marked_marked. unfold marked.
  rewrite !Hm. repeat split; [exact Hp|].
  intros E. injection E as E.
  apply (f_equal String.length) in E.
  rewrite !length_append in E. simpl in E. lia.
Qed.

Lemma derive_marks_clean_names_witness :
  (forall x, trimStr (trimStr x) = trimStr x)
  /\ exists pre,
       str (parse "songs/a.mp3") =
       (pre ++ "/" ++ name (parse "songs/a.mp3"))%string
       /\ derive Demo.config_normalize "songs/a.mp3" =
          Ok (pre ++ "/copy_" ++ name (parse "songs/a.mp3"))%string
       /\ derive_twice Demo.config_normalize "songs/a.mp3" =
          Ok (pre ++ "/copy_copy_" ++ name (parse "songs/a.mp3"))%string
       /\ derive_twice Demo.config_normalize "songs/a.mp3"
          <> derive Demo.config_normalize "songs/a.mp3".
Proof.
  exact (derive_marks_clean_names Demo.config_normalize "songs/a.mp3"
           eq_refl eq_refl eq_refl).
Defined.

(** ** Further properties of discovery *)

(** Discovery only looks at the directory: it leaves standard input and
    the directory alone and logs at most two globs, whatever it returns
    or raises. *)
Theorem discovery_only_globs (dir filename img : string) (w w' : world)
    (r : outcome (list Path * option Path)) :
  getFilePaths dir filename img w = (r, w') ->
  fs w' = fs w /\ stdin w' = stdin w
  /\ exists evs,
       log w' = log w ++ evs
       /\ forallb is_glob evs = true
       /\ List.length evs <= 2.
Proof.
  unfold getFilePaths, bind, glob, assert, item0, ret, raise, record.
  intros H.
  destruct (PyStr.contains "*" filename);
    [destruct (fs w (parse dir) filename) as [[|f l]|]|];
    simpl in H;
    try (destruct (PyStr.truthy img);
         [simpl in H;
          destruct (fs w (parse dir) img) as [[|m ms]|]; simpl in H|]);
    inversion H; subst; simpl; repeat split;
    try (rewrite <- app_assoc; simpl);
    first
      [ exists []; rewrite app_nil_r; repeat split; simpl; lia
      | eexists; split; [reflexivity|]; split; simpl; [reflexivity | lia] ].
Qed.

Lemma discovery_only_globs_witness :
  fs (record (Globbed (parse "songs/") "*.mp3") Demo.w0) = fs Demo.w0
  /\ stdin (record (Globbed (parse "songs/") "*.mp3") Demo.w0)
     = stdin Demo.w0
  /\ exists evs,
       log (record (Globbed (parse "songs/") "*.mp3") Demo.w0)
       = log Demo.w0 ++ evs
       /\ forallb is_glob evs = true
       /\ List.length evs <= 2.
Proof.
  exact (discovery_only_globs "songs/" "*.mp3" "" Demo.w0 _ _ eq_refl).
Defined.

(** Discovery returns no image exactly when no image pattern was given,
    and otherwise the first match of the pattern: a pattern that matches
    nothing is never turned into "no image". *)
Theorem discovery_image_is_first_match (dir filename img : string)
    (w w' : world) (files : list Path) (imageFile : option Path) :
  getFilePaths dir filename img w = (Ok (files, imageFile), w') ->
  match imageFile with
  | None => img = ""
  | Some m => img <> "" /\ exists ms, fs w (parse dir) img = Some (m :: ms)
  end.
Proof.
  unfold getFilePaths, bind, glob, assert, item0, ret, raise, record.
  intros H.
  assert (Hne : forall a s, String a s <> "") by discriminate.
  destruct (PyStr.contains "*" filename);
    [destruct (fs w (parse dir) filename) as [[|f l]|]|];
    simpl in H; try discriminate;
    (destruct img as [|a img]; simpl in H;
     [inversion H; reflexivity|]);
    destruct (fs w (parse dir) (String a img)) as [[|m ms]|] eqn:E;
    simpl in H; try discriminate;
    inversion H; subst; (split; [apply Hne | now exists ms]).
Qed.

Lemma discovery_image_is_first_match_witness :
  "*.png" <> ""
  /\ exists ms,
       fs DemoCover.w0 (parse "songs") "*.png"
       = Some (mkPath "" ["songs"; "cover.png"] :: ms).
Proof.
  exact (discovery_image_is_first_match "songs" "*.mp3" "*.png"
           DemoCover.w0 _ _ (Some (mkPath "" ["songs"; "cover.png"]))
           eq_refl).
Defined.

Lemma parse_absolute (s : string) :
  PyStr.starts_with sep s = true -> PyStr.truthy (root (parse s)) = true.
Proof.
  intros Hs. unfold parse, splitroot. rewrite Hs. simpl.
  now destruct (negb (PyStr.starts_with sep (PyStr.drop1 s))
                || PyStr.starts_with sep (PyStr.drop1 (PyStr.drop1 s))).
Qed.

(** A literal file name that starts with a slash is taken as it is: the
    directory plays no part in the path that discovery returns. *)
Theorem absolute_literal_ignores_directory (dir filename : string)
    (w : world) :
  PyStr.contains "*" filename = false ->
  PyStr.starts_with sep filename = true ->
  getFilePaths dir filename "" w = (Ok ([parse filename], None), w).
Proof.
  intros Hs Ha. rewrite (getFilePaths_literal dir filename "" w Hs).
  unfold bind. rewrite findImage_none. unfold ret, joinpath.
  now rewrite (parse_absolute filename Ha).
Qed.

Lemma absolute_literal_ignores_directory_witness :
  getFilePaths "songs" "/music/a.mp3" "" Demo.w0
  = (Ok ([parse "/music/a.mp3"], None), Demo.w0).
Proof.
  exact (absolute_literal_ignores_directory "songs" "/music/a.mp3" Demo.w0
           eq_refl eq_refl).
Defined.

(** ** Further properties of output names and trimming *)

(** Without the normalize flag the derived name is [copy_] and the bare
    file name, never fails, and holds no slash: the copy is named
    relative to the working directory, whatever the directory of the
    source. *)
Theorem plain_output_filename_has_no_directory (config : MediaConfig.t)
    (file : Path) :
  MediaConfig.replaceWhitespace config = false ->
  wf file = true ->
  getOutputFilename config file = Ok ("copy_" ++ name file)%string
  /\ PyStr.contains sep ("copy_" ++ name file) = false.
Proof.
  intros Hn Hwf. split; [now apply getOutputFilename_plain|].
  rewrite contains_append. simpl.
  apply last_component, wf_tail, Hwf.
Qed.

Lemma plain_output_filename_has_no_directory_witness :
  getOutputFilename Demo.config (mkPath "/" ["music"; "songs"; "a.mp3"])
  = Ok ("copy_" ++ "a.mp3")%string
  /\ PyStr.contains sep ("copy_" ++ "a.mp3") = false.
Proof.
  exact (plain_output_filename_has_no_directory Demo.config
           (mkPath "/" ["music"; "songs"; "a.mp3"]) eq_refl eq_refl).
Defined.

Lemma normalized_length (s : string) :
  String.length (normalized s) <= String.length s.
Proof.
  induction s as [|a s IH]; simpl; [lia|].
  destruct (Ascii.eqb a " "); simpl; [lia|].
  destruct (Ascii.eqb a "'"); simpl; lia.
Qed.

(** A trimmed name holds no space and no apostrophe, is never longer than
    the name, and is the name itself exactly when the name held neither
    to begin with. *)
Theorem trimStr_result_is_clean (s : string) :
  clean (trimStr s) = true
  /\ String.length (trimStr s) <= String.length s
  /\ (trimStr s = s <-> clean s = true).
Proof.
  rewrite trimStr_normalized. split; [apply clean_normalized|].
  split; [apply normalized_length|]. split.
  - intros E. rewrite <- E. apply clean_normalized.
  - apply normalized_clean.
Qed.





(** The text of a path holds a slash exactly when the path has a
    directory part. *)
Lemma str_has_dir (p : Path) :
  wf p = true -> PyStr.contains sep (str p) = has_dir p.
Proof.
  intros Hwf. pose proof (wf_root p Hwf) as Hr.
  pose proof (wf_tail p Hwf) as Ht.
  destruct p as [r t]. unfold has_dir. simpl in *.
  destruct t as [|x [|y t]].
  - destruct Hr as [->|[->| ->]]; reflexivity.
  - rewrite str_tail by discriminate. simpl.
    apply andb_prop in Ht. destruct Ht as [Hx _].
    destruct (component_ok_spec x Hx) as (_ & _ & Hs).
    rewrite contains_append, Hs, orb_false_r.
    destruct Hr as [->|[->| ->]]; reflexivity.
  - rewrite str_tail by discriminate. simpl root. simpl tail.
    change (String.concat "/" (x :: y :: t))
      with (x ++ String sep (String.concat "/" (y :: t)))%string.
    rewrite !contains_append. simpl. now rewrite !orb_true_r.
Qed.

(** In normalize mode the derivation raises [ValueError] exactly for a
    path without directory part, a relative path of at most one
    component such as a file found under ["."]; for every other path it
    returns a name. *)
Theorem normalize_fails_without_directory (config : MediaConfig.t)
    (file : Path) :
  MediaConfig.replaceWhitespace config = true ->
  wf file = true ->
  (has_dir file = false -> getOutputFilename config file = Raise ValueError)
  /\ (has_dir file = true ->
      exists out, getOutputFilename config file = Ok out)
  /\ (has_dir file = false <->
      root file = "" /\ List.length (tail file) <= 1).
Proof.
  intros Hn Hwf.
  rewrite (getOutputFilename_normalize config file Hn Hwf).
  rewrite (str_has_dir file Hwf).
  split; [now intros ->|]. split; [intros ->; eauto|].
  unfold has_dir. rewrite orb_false_iff, negb_false_iff, String.eqb_eq.
  rewrite Nat.leb_gt. split; intros [H1 H2]; split; auto; lia.
Qed.

Lemma normalize_fails_without_directory_witness :
  getOutputFilename Demo.config_normalize (joinpath (parse ".") "a.mp3")
  = Raise ValueError.
Proof.
  apply (normalize_fails_without_directory Demo.config_normalize
           (joinpath (parse ".") "a.mp3") eq_refl eq_refl).
  reflexivity.
Defined.

(** ** Further properties of the command and of start-up *)

Lemma skipn_length_app {A} (l t : list A) :
  skipn (List.length l) (l ++ t) = t.
Proof. induction l; simpl; auto. Qed.

Lemma metadataPairs_length (kvs : list (string * string)) :
  List.length (flat_map metadataPair kvs) = 2 * List.length kvs.
Proof. induction kvs; simpl; lia. Qed.

(** Every command that is built starts with [ffmpeg -i file] and ends
    with [-id3v2_version 3 -c copy] and the output name; it has eight
    arguments, six more with a cover image and two more for each tag that
    is set, of which there are at most five.  A command is built whenever
    a title is there and the slots that are read are filled. *)
Theorem command_shape (file : PathObj) (config : MediaConfig.t)
    (imageFile : option PathObj) (out : string) (w : world) :
  (forall cmd w',
     getFfmpegCommand file config imageFile out w = (Ok cmd, w') ->
     exists t,
       resolvedTitle config w = Some t
       /\ firstn 3 cmd = ["ffmpeg"; "-i"; str (value file)]
       /\ skipn (List.length cmd - 5) cmd =
          ["-id3v2_version"; "3"; "-c"; "copy"; out]
       /\ List.length cmd =
          8 + (match imageFile with Some _ => 6 | None => 0 end)
          + 2 * tagCount t config
       /\ tagCount t config <= 5)
  /\ (forall t,
        resolvedTitle config w = Some t ->
        cached file = true ->
        image_ready imageFile = true ->
        exists cmd w',
          getFfmpegCommand file config imageFile out w = (Ok cmd, w')).
Proof.
  split.
  - intros cmd w' H.
    destruct (getFfmpegCommand_returns _ _ _ _ _ _ _ H)
      as (t & Ht & _ & _ & ->).
    exists t. split; [exact Ht|].
    assert (Hlen : List.length
                     (inputArgs (value file) (option_map value imageFile)
                      ++ metadataArgs t config ++ outputArgs out) =
                   8 + (match imageFile with Some _ => 6 | None => 0 end)
                   + 2 * tagCount t config).
    { rewrite !length_app. unfold metadataArgs, tagCount.
      rewrite metadataPairs_length. destruct imageFile; simpl; lia. }
    split; [now destruct imageFile|]. split; [|split; [exact Hlen|]].
    + rewrite app_assoc at 2.
      replace (List.length
                 (inputArgs (value file) (option_map value imageFile)
                  ++ metadataArgs t config ++ outputArgs out) - 5)
        with (List.length
                (inputArgs (value file) (option_map value imageFile)
                 ++ metadataArgs t config)).
      * apply skipn_length_app.
      * rewrite !length_app. simpl. lia.
    + unfold tagCount.
      pose proof (filter_length_le nonempty (tagFields t config)) as Hle.
      simpl in *. exact Hle.
  - intros t Ht Hf Hi. eexists. eexists.
    exact (getFfmpegCommand_closed file config imageFile out w t Ht Hf Hi).
Qed.

Lemma command_shape_witness :
  exists cmd w',
    getFfmpegCommand (mkObj (mkPath "" ["songs"; "a.mp3"]) true) Demo.config
      (Some (mkObj (mkPath "" ["songs"; "cover.png"]) true)) "copy_a.mp3"
      Demo.w0
    = (Ok cmd, w').
Proof.
  exact (proj2 (command_shape (mkObj (mkPath "" ["songs"; "a.mp3"]) true)
                  Demo.config
                  (Some (mkObj (mkPath "" ["songs"; "cover.png"]) true))
                  "copy_a.mp3" Demo.w0)
           "Demo" eq_refl eq_refl eq_refl).
Defined.

Lemma script_cases (config : MediaConfig.t) (w : world) :
  script config w =
  if valid config then main config w else (Raise AssertionError, w).
Proof.
  unfold script, valid, bind, assert.
  destruct (MediaConfig.dir config =? ""),
           (MediaConfig.title config =? ""),
           (MediaConfig.askTitle config),
           (MediaConfig.img config =? ""),
           (MediaConfig.artist config =? ""),
           (MediaConfig.genre config =? ""),
           (MediaConfig.track config =? ""),
           (MediaConfig.album config =? ""); reflexivity.
Qed.

(** The three start-up assertions let a run through exactly when a
    directory is given and either a title is given, or the prompt flag
    is set together with an image or another tag; otherwise the run stops
    on the assertion with the world untouched.  The prompt flag alone is
    refused. *)
Theorem startup_validation_exact (config : MediaConfig.t) (w : world) :
  (script config w =
   if valid config then main config w else (Raise AssertionError, w))
  /\ (MediaConfig.title config = "" -> MediaConfig.img config = "" ->
      MediaConfig.artist config = "" -> MediaConfig.genre config = "" ->
      MediaConfig.track config = "" -> MediaConfig.album config = "" ->
      valid config = false).
Proof.
  split; [apply script_cases|].
  unfold valid. intros -> -> -> -> -> ->. simpl.
  now rewrite andb_false_r, andb_false_r.
Qed.

Lemma startup_validation_exact_witness :
  valid (MediaConfig.mk "songs" "" "" "" "" "" "" "*.mp3" true false false)
  = false.
Proof.
  apply (startup_validation_exact
           (MediaConfig.mk "songs" "" "" "" "" "" "" "*.mp3"
              true false false) Demo.w0); reflexivity.
Defined.

(** ** Further properties of the loop over the files *)

Lemma addMetadata_loop_plain (config : MediaConfig.t)
    (imageFile : option PathObj) (files : list PathObj) :
  MediaConfig.askTitle config = false ->
  MediaConfig.replaceWhitespace config = false ->
  image_ready imageFile = true ->
  forallb cached files = true ->
  forall (acc : list string) (w : world),
    programs_ready config w = true ->
    exists w',
      addMetadata_loop config imageFile files acc w =
      (Ok (acc ++ map (fun f => ("copy_" ++ name (value f))%string) files),
       w')
      /\ log w' =
         log w ++ flat_map (plainEvents config (option_map value imageFile))
                    (map value files)
      /\ stdin w' = stdin w /\ fs w' = fs w.
Proof.
  intros Hask Hn Hi. induction files as [|file files IH]; intros Hc acc w Hp.
  - exists w. simpl. rewrite !app_nil_r. now repeat split.
  - simpl in Hc. apply andb_prop in Hc. destruct Hc as [Hf Hc].
    rewrite (addMetadata_loop_step config imageFile file files acc w
               ("copy_" ++ name (value file)) (MediaConfig.title config)).
    + destruct (IH Hc (acc ++ [("copy_" ++ name (value file))%string])
                  (afterFile config (option_map value imageFile) (value file)
                     ("copy_" ++ name (value file))
                     (MediaConfig.title config) w))
        as (w' & Hrun & Hlog & Hin & Hfs).
      { now rewrite afterFile_host. }
      exists w'. rewrite Hrun, Hlog, Hin, Hfs.
      unfold afterFile, afterTitle, fileEvents, plainEvents.
      rewrite Hask, Hn. simpl. rewrite <- !app_assoc. now repeat split.
    + now apply getOutputFilename_plain.
    + unfold resolvedTitle. now rewrite Hask.
    + unfold file_ready. now rewrite Hf, orb_true_r.
    + exact Hi.
    + exact Hp.
Qed.

(** With neither the prompt nor the normalize flag, nothing fills the
    [_str] slot of a file before it is read.  When the slots of the files
    and of the image are filled and the programs can be started, the run
    goes through for any list of files, the empty one included: ffmpeg
    once per file in order, each time onto [copy_] and the bare file
    name, the cleanup of a file right behind its run, and no input read.
    When the slot of the first file is empty the run stops at once with
    [AttributeError], and when ffmpeg cannot be started with
    [FileNotFoundError], in both cases with nothing run. *)
Theorem plain_run_needs_filled_slots (config : MediaConfig.t)
    (files : list PathObj) (imageFile : option PathObj) (w : world) :
  MediaConfig.askTitle config = false ->
  MediaConfig.replaceWhitespace config = false ->
  (forallb cached files = true ->
   image_ready imageFile = true ->
   programs_ready config w = true ->
   exists w',
     addMetadata config files imageFile w = (Ok tt, w')
     /\ log w' =
        log w ++ flat_map (plainEvents config (option_map value imageFile))
                   (map value files)
     /\ stdin w' = stdin w)
  /\ (forall f rest,
        files = f :: rest ->
        cached f = false ->
        addMetadata config files imageFile w = (Raise AttributeError, w))
  /\ (forall f rest,
        files = f :: rest ->
        cached f = true ->
        image_ready imageFile = true ->
        installed w "ffmpeg" = false ->
        addMetadata config files imageFile w = (Raise FileNotFoundError, w)).
Proof.
  intros Hask Hn. split; [|split].
  - intros Hc Hi Hp.
    destruct (addMetadata_loop_plain config imageFile files Hask Hn Hi Hc
                [] w Hp) as (w' & Hrun & Hlog & Hin & _).
    exists w'. unfold addMetadata, bind. rewrite Hrun. now repeat split.
  - intros f rest -> Hf. unfold addMetadata. simpl addMetadata_loop.
    unfold bind at 1 2, lift at 1.
    rewrite (getOutputFilename_plain config (value f) Hn). cbv beta iota.
    unfold bind at 1.
    rewrite (getFfmpegCommand_outcome _ config imageFile _ w
               (MediaConfig.title config))
      by (unfold resolvedTitle; now rewrite Hask).
    rewrite seen_cached. unfold file_ready. rewrite Hn, Hf. simpl.
    unfold afterTitle. now rewrite Hask.
  - intros f rest -> Hf Hi Hff. unfold addMetadata. simpl addMetadata_loop.
    unfold bind at 1 2, lift at 1.
    rewrite (getOutputFilename_plain config (value f) Hn). cbv beta iota.
    unfold bind at 1.
    rewrite (getFfmpegCommand_closed _ config imageFile _ w
               (MediaConfig.title config))
      by (try rewrite seen_cached; unfold resolvedTitle, file_ready;
          rewrite ?Hask, ?Hf, ?orb_true_r; auto).
    cbv beta iota. unfold bind at 1, afterTitle. rewrite Hask.
    unfold subprocess_run. destruct imageFile; simpl; now rewrite Hff.
Qed.

Lemma plain_run_needs_filled_slots_witness :
  (exists w',
     addMetadata Demo.config
       [mkObj (mkPath "" ["songs"; "a.mp3"]) true;
        mkObj (mkPath "/" ["b.mp3"]) true] None Demo.w0
     = (Ok tt, w')
     /\ log w' =
        log Demo.w0
        ++ flat_map (plainEvents Demo.config None)
             [mkPath "" ["songs"; "a.mp3"]; mkPath "/" ["b.mp3"]]
     /\ stdin w' = stdin Demo.w0)
  /\ addMetadata Demo.config
       [fresh (mkPath "" ["songs"; "a.mp3"]);
        mkObj (mkPath "/" ["b.mp3"]) true] None Demo.w0
     = (Raise AttributeError, Demo.w0).
Proof.
  split.
  - apply (plain_run_needs_filled_slots Demo.config
             [mkObj (mkPath "" ["songs"; "a.mp3"]) true;
              mkObj (mkPath "/" ["b.mp3"]) true] None Demo.w0
             eq_refl eq_refl); reflexivity.
  - apply (plain_run_needs_filled_slots Demo.config
             [fresh (mkPath "" ["songs"; "a.mp3"]);
              mkObj (mkPath "/" ["b.mp3"]) true] None Demo.w0
             eq_refl eq_refl)
      with (f := fresh (mkPath "" ["songs"; "a.mp3"]))
           (rest := [mkObj (mkPath "/" ["b.mp3"]) true]); reflexivity.
Defined.








(** ** Whole runs *)




(** With a wildcard and no image pattern, [main] hands the matches to the
    loop, each with its slot as glob handed it out. *)
Lemma main_wildcard (config : MediaConfig.t) (w : world) (l : list Path) :
  MediaConfig.img config = "" ->
  PyStr.contains "*" (MediaConfig.filename config) = true ->
  fs w (parse (MediaConfig.dir config)) (MediaConfig.filename config)
    = Some l ->
  l <> [] ->
  main config w =
  addMetadata config
    (map (fun p => mkObj p (glob_slot w (parse (MediaConfig.dir config))
                              (MediaConfig.filename config) p)) l)
    None
    (record (Globbed (parse (MediaConfig.dir config))
               (MediaConfig.filename config)) w).
Proof.
  intros Hi Hs Hl Hne. unfold main, bind at 1.
  rewrite (getFilePaths_wildcard _ _ _ w l Hs Hl).
  destruct l as [|f l]; [congruence|].
  unfold bind at 1. rewrite Hi, findImage_none. unfold ret at 1.
  cbv beta iota. unfold discovered. rewrite Hs. reflexivity.
Qed.

(** A whole run with a wildcard, no image pattern and neither the prompt
    nor the normalize flag.  When glob hands out every match with its
    [_str] slot filled and the programs can be started, ffmpeg runs once
    for each match in the order of the expansion after the one glob, and
    the run ends well.  When the first match comes with an empty slot,
    the run stops with [AttributeError] right after the glob, with no
    program run. *)
Theorem plain_wildcard_run (config : MediaConfig.t) (w : world)
    (l : list Path) :
  valid config = true ->
  MediaConfig.askTitle config = false ->
  MediaConfig.replaceWhitespace config = false ->
  MediaConfig.img config = "" ->
  PyStr.contains "*" (MediaConfig.filename config) = true ->
  fs w (parse (MediaConfig.dir config)) (MediaConfig.filename config)
    = Some l ->
  l <> [] ->
  (forallb (glob_slot w (parse (MediaConfig.dir config))
              (MediaConfig.filename config)) l = true ->
   programs_ready config w = true ->
   exists w',
     script config w = (Ok tt, w')
     /\ log w' =
        log w
        ++ Globbed (parse (MediaConfig.dir config))
             (MediaConfig.filename config)
           :: flat_map (plainEvents config None) l)
  /\ (glob_slot w (parse (MediaConfig.dir config))
        (MediaConfig.filename config) (hd (mkPath "" []) l) = false ->
      script config w =
      (Raise AttributeError,
       record (Globbed (parse (MediaConfig.dir config))
                 (MediaConfig.filename config)) w)).
Proof.
  intros Hv Hask Hn Hi Hs Hl Hne.
  rewrite script_cases, Hv.
  rewrite (main_wildcard config w l Hi Hs Hl Hne).
  set (w1 := record _ w).
  set (slot := glob_slot w (parse (MediaConfig.dir config))
                 (MediaConfig.filename config)).
  destruct l as [|f l]; [congruence|].
  split.
  - intros Hc Hp.
    destruct (addMetadata_loop_plain config None
                (map (fun p => mkObj p (slot p)) (f :: l)) Hask Hn eq_refl)
      with (acc := @nil string) (w := w1) as (w' & Hrun & Hlog & _).
    { rewrite forallb_forall in Hc. apply forallb_forall.
      intros o Ho. apply in_map_iff in Ho. destruct Ho as (p & <- & Hin).
      simpl. now apply Hc. }
    { exact Hp. }
    exists w'. unfold addMetadata, bind. rewrite Hrun.
    split; [reflexivity|].
    rewrite Hlog. unfold w1, record. simpl log.
    rewrite map_map. simpl value. rewrite map_id.
    now rewrite <- app_assoc.
  - intros Hf. simpl hd in Hf. cbn [map].
    unfold addMetadata. simpl addMetadata_loop.
    unfold bind at 1 2, lift at 1.
    rewrite (getOutputFilename_plain config _ Hn). cbv beta iota.
    unfold bind at 1.
    rewrite (getFfmpegCommand_outcome _ config None _ w1
               (MediaConfig.title config))
      by (unfold resolvedTitle; now rewrite Hask).
    rewrite seen_cached. unfold file_ready. rewrite Hn. simpl cached.
    rewrite Hf. simpl. unfold afterTitle. now rewrite Hask.
Qed.

Lemma plain_wildcard_run_witness :
  (exists w',
     script Demo.config Demo.w0 = (Ok tt, w')
     /\ log w' =
        log Demo.w0
        ++ Globbed (parse "songs/") "*.mp3"
           :: flat_map (plainEvents Demo.config None)
                [mkPath "" ["songs"; "a.mp3"];
                 mkPath "" ["songs"; "b.mp3"]])
  /\ script Demo.config Demo.w0_unfilled =
     (Raise AttributeError,
      record (Globbed (parse "songs/") "*.mp3") Demo.w0_unfilled).
Proof.
  split.
  - apply (plain_wildcard_run Demo.config Demo.w0
             [mkPath "" ["songs"; "a.mp3"]; mkPath "" ["songs"; "b.mp3"]]);
      try reflexivity.
    discriminate.
  - apply (plain_wildcard_run Demo.config Demo.w0_unfilled
             [mkPath "" ["songs"; "a.mp3"]; mkPath "" ["songs"; "b.mp3"]]);
      try reflexivity.
    discriminate.
Defined.

Lemma addMetadata_loop_reads (config : MediaConfig.t)
    (imageFile : option PathObj) (files : list PathObj)
    (outs : list string) :
  MediaConfig.askTitle config = true ->
  image_ready imageFile = true ->
  Forall2 (fun f o => getOutputFilename config (value f) = Ok o
                      /\ file_ready config f = true) files outs ->
  forall (acc : list string) (w : world),
    programs_ready config w = true ->
    List.length files <= List.length (stdin w) ->
    exists w',
      addMetadata_loop config imageFile files acc w = (Ok (acc ++ outs), w')
      /\ stdin w' = skipn (List.length files) (stdin w)
      /\ fs w' = fs w.
Proof.
  intros Hask Hi.
  induction 1 as [|f o files outs [Ho Hf] HF IH]; intros acc w Hp Hlen.
  - exists w. simpl. rewrite app_nil_r. now repeat split.
  - destruct (stdin w) as [|line rest] eqn:Hin; [simpl in Hlen; lia|].
    rewrite (addMetadata_loop_step config imageFile f _ acc w o line Ho)
      by (auto; unfold resolvedTitle; now rewrite Hask, Hin).
    assert (Hs : stdin (afterFile config (option_map value imageFile)
                          (value f) o line w) = rest).
    { unfold afterFile, afterTitle. rewrite Hask. simpl. now rewrite Hin. }
    destruct (IH (acc ++ [o])
                (afterFile config (option_map value imageFile) (value f)
                   o line w)) as (w' & Hrun & Hin' & Hfs).
    { now rewrite afterFile_host. }
    { rewrite Hs. simpl in Hlen. lia. }
    exists w'. rewrite Hrun, Hin', Hfs, Hs, <- app_assoc.
    now repeat split.
Qed.

(** Under the prompt flag a run that has enough lines reads exactly one
    line of standard input per file and leaves the rest unread, as long
    as every file gets its command: the output names can be derived, the
    [_str] slots are filled by the time they are read and the programs
    can be started. *)
Theorem prompted_run_reads_one_line_per_file (config : MediaConfig.t)
    (imageFile : option PathObj) (files : list PathObj)
    (outs : list string) (w : world) :
  MediaConfig.askTitle config = true ->
  Forall2 (fun f o => getOutputFilename config (value f) = Ok o
                      /\ file_ready config f = true) files outs ->
  image_ready imageFile = true ->
  programs_ready config w = true ->
  List.length files <= List.length (stdin w) ->
  exists w',
    addMetadata config files imageFile w = (Ok tt, w')
    /\ stdin w' = skipn (List.length files) (stdin w).
Proof.
  intros Hask Houts Hi Hp Hlen.
  destruct (addMetadata_loop_reads config imageFile files outs Hask Hi Houts
              [] w Hp Hlen) as (w' & Hrun & Hin & _).
  exists w'. unfold addMetadata, bind. rewrite Hrun. now split.
Qed.

Lemma prompted_run_reads_one_line_per_file_witness :
  exists w',
    addMetadata Demo.config_literal
      [fresh (mkPath "" ["my songs"; "it's a b.mp3"])] None Demo.w_prompt
    = (Ok tt, w')
    /\ stdin w' = ["Second"].
Proof.
  apply (prompted_run_reads_one_line_per_file Demo.config_literal None
           [fresh (mkPath "" ["my songs"; "it's a b.mp3"])]
           ["my_songs/copy_its_a_b.mp3"] Demo.w_prompt eq_refl).
  - repeat constructor.
  - reflexivity.
  - reflexivity.
  - simpl. lia.
Defined.

(** The path that discovery builds from a literal name is well formed,
    and parsing its text gives the same path back. *)
Theorem literal_path_round_trip (dir filename img : string) (w w' : world)
    (files : list Path) (imageFile : option Path) :
  PyStr.contains "*" filename = false ->
  getFilePaths dir filename img w = (Ok (files, imageFile), w') ->
  Forall (fun p => wf p = true /\ parse (str p) = p) files.
Proof.
  intros Hs H. rewrite (getFilePaths_literal dir filename img w Hs) in H.
  unfold bind, ret in H.
  destruct (findImage _ _ _) as [[im|e] w1]; inversion H; subst.
  constructor; [|constructor].
  assert (Hwf : wf (joinpath (parse dir) filename) = true)
    by apply joinpath_wf, parse_wf.
  split; [exact Hwf | now apply parse_str].
Qed.

Lemma literal_path_round_trip_witness :
  Forall (fun p => wf p = true /\ parse (str p) = p)
    [mkPath "" ["songs"; "sub"; "a.mp3"]].
Proof.
  exact (literal_path_round_trip "./songs//" "sub/./a.mp3" "" Demo.w0 _ _ _
           eq_refl eq_refl).
Defined.
